(** * flag_checker: hexadecimal flag extraction, decoding and frequency report

    A shallow embedding of [flag_checker.py] and the verification of its
    natural-language specification.

    Conventions of the embedding:
    - a Python [int] is a [Z]; [&] is [Z.land] (two's complement on both sides);
    - a Python [str] is a [string]; the characters the program inspects are
      all ASCII, a non-ASCII character is any byte outside the ASCII range;
    - a [dict] is an association list in insertion order, because the program
      iterates its dictionaries;
    - a raised exception is a value of [raised]; [sys.exit] raises
      [SystemExit], which [except Exception] does not catch;
    - standard output is the list of the strings given to [print];
    - a Python [float] is a binary64 [spec_float]. *)

From Stdlib Require Import ZArith List String Ascii Lia Bool.
From Stdlib Require Import Sorting.Sorted Sorting.Permutation.
From Stdlib Require Import Numbers.DecimalString.
From Stdlib Require Import Floats.SpecFloat.
From Equations Require Import Equations.
From Equations.Prop Require Import Logic.
Import ListNotations.

Open Scope string_scope.
Open Scope Z_scope.

(** ** Python values, exceptions and results *)

Inductive exc_class : Type :=
| ValueError
| ZeroDivisionError
| OverflowError
| FileNotFoundError
| PermissionError
| IsADirectoryError
| UnicodeDecodeError
| OSError.

Inductive raised : Type :=
| Exc (cls : exc_class) (msg : string)
| SystemExit (code : Z).

Inductive res (A : Type) : Type :=
| Ok (a : A)
| Raise (e : raised).
Arguments Ok {A} a.
Arguments Raise {A} e.

Definition res_bind {A B : Type} (r : res A) (k : A -> res B) : res B :=
  match r with
  | Ok a => k a
  | Raise e => Raise e
  end.

(** An element of [flag_list]: the program tests [isinstance(flag_value, str)]. *)
Inductive pyval : Type :=
| PyInt (z : Z)
| PyStr (s : string).

(** ** Characters and strings *)

Definition code (c : ascii) : Z := Z.of_N (N_of_ascii c).

Definition in_range (lo hi c : ascii) : bool :=
  (code lo <=? code c) && (code c <=? code hi).

(** The character class [[0-9a-fA-F]] of the regular expression. *)
Definition class_hex (c : ascii) : bool :=
  in_range "0" "9" c || in_range "a" "f" c || in_range "A" "F" c.

Definition newline : string := String (ascii_of_nat 10) "".

Fixpoint spaces (n : nat) : string :=
  match n with
  | O => ""
  | S n' => String " " (spaces n')
  end.

Fixpoint repeat_char (c : ascii) (n : nat) : string :=
  match n with
  | O => ""
  | S n' => String c (repeat_char c n')
  end.

(** [str(n)] for an [int]. *)
Definition str_int (z : Z) : string := NilZero.string_of_int (Z.to_int z).

Definition quote (s : string) : string := "'" ++ s ++ "'".

(** ** The builtin [int(s, 16)]

    The string may be surrounded by whitespace, may carry a sign and a
    [0x]/[0X] prefix, and may have single underscores between digits.
    Power-of-two bases have no limit on the number of digits.

    The model is that of the builtin on ASCII strings, which is what the
    program passes to it: the tokens of the Extractor.  Outside ASCII the
    builtin also accepts Unicode decimal digits and white space, which
    are rejected here; and its message shows [repr(s)], written here as
    the string between apostrophes. *)

Definition is_space (c : ascii) : bool :=
  in_range (ascii_of_nat 9) (ascii_of_nat 13) c || Ascii.eqb c " ".

Fixpoint lstrip (s : string) : string :=
  match s with
  | String c t => if is_space c then lstrip t else s
  | EmptyString => EmptyString
  end.

Fixpoint rstrip (s : string) : string :=
  match s with
  | String c t =>
      match rstrip t with
      | EmptyString => if is_space c then EmptyString else String c EmptyString
      | t' => String c t'
      end
  | EmptyString => EmptyString
  end.

Definition strip (s : string) : string := rstrip (lstrip s).

Definition hex_digit_value (c : ascii) : option Z :=
  if in_range "0" "9" c then Some (code c - 48)
  else if in_range "a" "z" c then
    (if code c - 87 <? 16 then Some (code c - 87) else None)
  else if in_range "A" "Z" c then
    (if code c - 55 <? 16 then Some (code c - 55) else None)
  else None.

Inductive prev_char : Type := AtStart | AfterDigit | AfterUnderscore.

Fixpoint int_digits (s : string) (acc : Z) (prev : prev_char) : option Z :=
  match s with
  | EmptyString =>
      match prev with
      | AfterDigit => Some acc
      | _ => None
      end
  | String c t =>
      if Ascii.eqb c "_" then
        match prev with
        | AfterDigit => int_digits t acc AfterUnderscore
        | _ => None
        end
      else
        match hex_digit_value c with
        | Some d => int_digits t (16 * acc + d) AfterDigit
        | None => None
        end
  end.

Definition split_sign (s : string) : bool * string :=
  match s with
  | String "-" t => (true, t)
  | String "+" t => (false, t)
  | _ => (false, s)
  end.

Definition skip_prefix16 (s : string) : string :=
  match s with
  | String "0" (String "x" t) | String "0" (String "X" t) =>
      match t with
      | String "_" t' => t'
      | _ => t
      end
  | _ => s
  end.

Definition int16 (s : string) : res Z :=
  let (neg, body) := split_sign (strip s) in
  match int_digits (skip_prefix16 body) 0 AtStart with
  | Some n => Ok (if neg then - n else n)
  | None =>
      Raise (Exc ValueError
               ("invalid literal for int() with base 16: " ++ quote s))
  end.

(** ** EObjectFlags enum *)

Definition flags_dict : list (Z * string) :=
  [ (0x00000001, "RF_Transactional");
    (0x00000002, "RF_Unreachable");
    (0x00000004, "RF_Public");
    (0x00000008, "RF_TagImp");
    (0x00000010, "RF_TagExp");
    (0x00000020, "RF_SourceModified");
    (0x00000040, "RF_TagGarbage");
    (0x00000080, "RF_Final");
    (0x00000100, "RF_PerObjectLocalized");
    (0x00000200, "RF_NeedLoad");
    (0x00000400, "RF_HighlightedName/RF_EliminateObject/RF_RemappedName/RF_Protected");
    (0x00000800, "RF_InSingularFunc/RF_Suppress/RF_StateChanged");
    (0x00001000, "RF_InEndState");
    (0x00002000, "RF_Transient");
    (0x00004000, "RF_Preloading");
    (0x00008000, "RF_LoadForClient");
    (0x00010000, "RF_LoadForServer");
    (0x00020000, "RF_LoadForEdit");
    (0x00040000, "RF_Standalone");
    (0x00080000, "RF_NotForClient");
    (0x00100000, "RF_NotForServer");
    (0x00200000, "RF_NotForEdit");
    (0x00400000, "RF_Destroyed");
    (0x00800000, "RF_NeedPostLoad");
    (0x01000000, "RF_HasStack");
    (0x02000000, "RF_Native");
    (0x04000000, "RF_Marked");
    (0x08000000, "RF_ErrorShutdown");
    (0x10000000, "RF_DebugPostLoad");
    (0x20000000, "RF_DebugSerialize");
    (0x40000000, "RF_DebugDestroy");
    (0x80000000, "RF_DebugDestroy") ].

(** ** extract_hex_values: [re.findall(r'0x([0-9a-fA-F]+)', text)] *)

(** The greedy [[0-9a-fA-F]+]: the longest run of class characters at the
    head of [s], and what follows it. *)
Fixpoint hex_run (s : string) : string * string :=
  match s with
  | String c t =>
      if class_hex c
      then let (d, rest) := hex_run t in (String c d, rest)
      else (EmptyString, s)
  | EmptyString => (EmptyString, EmptyString)
  end.

(** One attempt of the pattern at the head of [s]: the captured group and
    the text after the match. *)
Definition match_here (s : string) : option (string * string) :=
  match s with
  | String "0" (String "x" t) =>
      match hex_run t with
      | (EmptyString, _) => None
      | (d, rest) => Some (d, rest)
      end
  | _ => None
  end.

Lemma hex_run_length (s : string) :
  (String.length (snd (hex_run s)) <= String.length s)%nat.
Proof.
  induction s as [|c t IH]; simpl; [lia|].
  destruct (class_hex c); simpl; [|lia].
  destruct (hex_run t) as [d rest]; simpl in *; lia.
Qed.

Lemma match_here_shorter (s d rest : string) :
  match_here s = Some (d, rest) ->
  (String.length rest < String.length s)%nat.
Proof.
  unfold match_here.
  destruct s as [|c0 [|c1 t]]; try discriminate.
  - destruct c0 as [[] [] [] [] [] [] [] []]; discriminate.
  - intros H.
    assert (Hr : match hex_run t with
                 | (EmptyString, _) => None
                 | (d, rest) => Some (d, rest)
                 end = Some (d, rest)).
    { destruct c0 as [[] [] [] [] [] [] [] []]; try discriminate;
        destruct c1 as [[] [] [] [] [] [] [] []]; try discriminate; exact H. }
    pose proof (hex_run_length t) as Hl.
    destruct (hex_run t) as [d' rest']; simpl in Hl.
    destruct d'; inversion Hr; subst; simpl; lia.
Qed.

(** The scan of [findall]: leftmost match first, the next search starts
    where the match ended; where nothing matches, one character on. *)
Equations? findall (s : string) : list string by wf (String.length s) lt :=
  findall EmptyString := [];
  findall (String c t) with inspect (match_here (String c t)) := {
    | exist _ (Some (d, rest)) Hm => d :: findall rest;
    | exist _ None _ => findall t }.
Proof.
  exact (match_here_shorter (String c t) d rest Hm).
Qed.

Definition extract_hex_values (text : string) : list string := findall text.

(** ** The builtin [sorted]

    A stable sort that compares with [<] only.  With [reverse=True] the
    list is reversed, sorted, and reversed again, which keeps elements
    that compare equal in their original order. *)

Section Sorting.
Context {A : Type} (lt : A -> A -> bool).

Fixpoint insert (x : A) (l : list A) : list A :=
  match l with
  | [] => [x]
  | y :: l' => if lt y x then y :: insert x l' else x :: y :: l'
  end.

Definition stable_sort (l : list A) : list A := fold_right insert [] l.

Definition sorted (reverse : bool) (l : list A) : list A :=
  if reverse then rev (stable_sort (rev l)) else stable_sort l.
End Sorting.

(** [<] on the [(int, str)] tuples of [flags_dict.items()]. *)
Definition tuple_lt (a b : Z * string) : bool :=
  (fst a <? fst b) || ((fst a =? fst b) && String.ltb (snd a) (snd b)).

(** ** analyze_flags *)

Definition to_int (flag_value : pyval) : res Z :=
  match flag_value with
  | PyStr s => int16 s
  | PyInt z => Ok z
  end.

(** The loop body of [analyze_flags]: [if flag_value & flag_bit: append]. *)
Definition append_if_set (flag_value : Z) (set_flags : list string)
    (item : Z * string) : list string :=
  let (flag_bit, flag_name) := item in
  if Z.land flag_value flag_bit =? 0 then set_flags
  else (set_flags ++ [flag_name])%list.

Definition analyze_flags (flag_value : pyval) : res (list string) :=
  res_bind (to_int flag_value) (fun v =>
    Ok (fold_left (append_if_set v) (sorted tuple_lt false flags_dict) [])).

(** ** The [flag_counts] dictionary: keys in insertion order *)

Definition dict : Type := list (string * Z).

Fixpoint dict_get (d : dict) (k : string) (default : Z) : Z :=
  match d with
  | [] => default
  | (k', v) :: d' => if String.eqb k' k then v else dict_get d' k default
  end.

Fixpoint dict_set (d : dict) (k : string) (v : Z) : dict :=
  match d with
  | [] => [(k, v)]
  | (k', v') :: d' =>
      if String.eqb k' k then (k', v) :: d' else (k', v') :: dict_set d' k v
  end.

(** The inner loop body of [analyze_multiple]. *)
Definition count_if_set (flag_value : Z) (flag_counts : dict)
    (item : Z * string) : dict :=
  let (flag_bit, flag_name) := item in
  if Z.land flag_value flag_bit =? 0 then flag_counts
  else dict_set flag_counts flag_name (dict_get flag_counts flag_name 0 + 1).

Definition count_value (flag_counts : dict) (flag_value : Z) : dict :=
  fold_left (count_if_set flag_value) flags_dict flag_counts.

(** The outer loop: [int(flag_value, 16)] may raise and ends the loop. *)
Fixpoint count_flags (flag_list : list pyval) (flag_counts : dict) : res dict :=
  match flag_list with
  | [] => Ok flag_counts
  | flag_value :: rest =>
      res_bind (to_int flag_value) (fun v =>
        count_flags rest (count_value flag_counts v))
  end.

Definition count_lt (a b : string * Z) : bool := snd a <? snd b.

(** [sorted(flag_counts.items(), key=lambda x: x[1], reverse=True)] *)
Definition sorted_flags (flag_counts : dict) : list (string * Z) :=
  sorted count_lt true flag_counts.

(** The aggregation of [analyze_multiple], without the printing. *)
Definition aggregate (flag_list : list pyval) : res (list (string * Z)) :=
  res_bind (count_flags flag_list []) (fun fc => Ok (sorted_flags fc)).

(** ** Floats: true division, product and the [.1f] format *)

Definition prec : Z := 53.
Definition emax : Z := 1024.

Definition exact_float (z : Z) : spec_float :=
  match z with
  | Z0 => S754_zero false
  | Zpos p => S754_finite false p 0
  | Zneg p => S754_finite true p 0
  end.

(** [float(n)]: the nearest binary64 number. *)
Definition float_of_int (z : Z) : spec_float :=
  binary_normalize prec emax z 0 false.

(** [a / b] on two [int]s: the correctly rounded quotient. *)
Definition int_truediv (a b : Z) : res spec_float :=
  if b =? 0 then Raise (Exc ZeroDivisionError "division by zero")
  else
    match SFdiv prec emax (exact_float a) (exact_float b) with
    | S754_infinity _ =>
        Raise (Exc OverflowError "integer division result too large for a float")
    | q => Ok q
    end.

Definition float_mul_int (x : spec_float) (n : Z) : spec_float :=
  SFmul prec emax x (float_of_int n).

(** Rounding of [num / den] ([den > 0], [num >= 0]) to the nearest
    integer, ties to even. *)
Definition round_half_even (num den : Z) : Z :=
  let q := num / den in
  let r := num mod den in
  match 2 * r ?= den with
  | Lt => q
  | Gt => q + 1
  | Eq => if Z.even q then q else q + 1
  end.

(** The number of tenths nearest to [m * 2^e]. *)
Definition tenths (m : positive) (e : Z) : Z :=
  if 0 <=? e then Zpos m * 2 ^ e * 10
  else round_half_even (Zpos m * 10) (2 ^ (- e)).

Definition sign_str (s : bool) : string := if s then "-" else "".

(** [format(x, ".1f")] *)
Definition format_1f (x : spec_float) : string :=
  match x with
  | S754_zero s => sign_str s ++ "0.0"
  | S754_infinity s => sign_str s ++ "inf"
  | S754_nan => "nan"
  | S754_finite s m e =>
      let n := tenths m e in
      sign_str s ++ str_int (n / 10) ++ "." ++ str_int (n mod 10)
  end.

(** Alignment in a field of minimal [width]: a longer text is kept whole. *)
Definition ljust (width : nat) (s : string) : string :=
  s ++ spaces (width - String.length s).

Definition rjust (width : nat) (s : string) : string :=
  spaces (width - String.length s) ++ s.

(** [f"{flag_name:50} {count:3}/{total} ({percentage:5.1f}%)"] *)
Definition report_line (flag_name : string) (count total : Z)
    (percentage : spec_float) : string :=
  ljust 50 flag_name ++ " " ++ rjust 3 (str_int count) ++ "/" ++ str_int total
    ++ " (" ++ rjust 5 (format_1f percentage) ++ "%)".

(** [percentage = (count / total) * 100] *)
Definition percentage (count total : Z) : res spec_float :=
  res_bind (int_truediv count total) (fun q => Ok (float_mul_int q 100)).

(** ** Programs that print *)

Definition io (A : Type) : Type := list string -> res A * list string.

Definition ret {A : Type} (a : A) : io A := fun out => (Ok a, out).

Definition bind {A B : Type} (m : io A) (k : A -> io B) : io B :=
  fun out =>
    match m out with
    | (Ok a, out') => k a out'
    | (Raise e, out') => (Raise e, out')
    end.

Definition lift {A : Type} (r : res A) : io A := fun out => (r, out).

Definition print (s : string) : io unit := fun out => (Ok tt, (out ++ [s])%list).

Definition sys_exit (code : Z) : io unit := lift (Raise (SystemExit code)).

(** [try: body  except ...: handler]; the handler decides what it catches
    and returns [None] for an exception that propagates. *)
Definition try_except {A : Type} (body : io A)
    (handler : raised -> option (io A)) : io A :=
  fun out =>
    match body out with
    | (Ok a, out') => (Ok a, out')
    | (Raise e, out') =>
        match handler e with
        | Some h => h out'
        | None => (Raise e, out')
        end
    end.

Declare Scope io_scope.
Delimit Scope io_scope with io.
Notation "x <- m ;; k" := (bind m (fun x => k))
  (at level 61, m at next level, right associativity) : io_scope.
Notation "m ;; k" := (bind m (fun _ => k))
  (at level 61, right associativity) : io_scope.
Open Scope io_scope.

Fixpoint for_each {A : Type} (l : list A) (body : A -> io unit) : io unit :=
  match l with
  | [] => ret tt
  | x :: l' => body x ;; for_each l' body
  end.

(** ** analyze_multiple *)

Definition len {A : Type} (l : list A) : Z := Z.of_nat (List.length l).

Definition analyze_multiple (flag_list : list pyval) : io unit :=
  print (repeat_char "=" 60) ;;
  print "ANALYZING FLAGS" ;;
  print (repeat_char "=" 60) ;;
  let total := len flag_list in
  flag_counts <- lift (count_flags flag_list []) ;;
  let sorted_flags := sorted_flags flag_counts in
  print (newline ++ "Flag frequency across " ++ str_int total ++ " files:"
           ++ newline) ;;
  for_each sorted_flags (fun item =>
    let (flag_name, count) := item in
    pct <- lift (percentage count total) ;;
    print (report_line flag_name count total pct)).

(** ** The command line *)

(** [open(filename, 'r')] followed by [f.read()]: the text, or what was
    raised. *)
Definition filesystem : Type := string -> res string.

Definition handlers (filename : string) (e : raised) : option (io unit) :=
  match e with
  | Exc FileNotFoundError _ =>
      Some (print ("Error: File " ++ quote filename ++ " not found!") ;;
            sys_exit 1)
  | Exc _ msg => Some (print ("Error: " ++ msg) ;; sys_exit 1)
  | SystemExit _ => None
  end.

Definition main (argv : list string) (fs : filesystem) : io unit :=
  match argv with
  | [_; filename] =>
      try_except
        (content <- lift (fs filename) ;;
         let hex_values := extract_hex_values content in
         match hex_values with
         | [] => print "No hex values found in file!" ;; sys_exit 1
         | _ =>
             print ("Found " ++ str_int (len hex_values) ++ " hex values"
                      ++ newline) ;;
             analyze_multiple (map PyStr hex_values)
         end)
        (handlers filename)
  | _ => print "Usage: python flag_checker.py <filename>" ;; sys_exit 1
  end.

(** What the process leaves behind: the printed strings and the exit
    status.  An exception that reaches the top level ends the process with
    status 1. *)
Definition run (argv : list string) (fs : filesystem) : list string * Z :=
  match main argv fs [] with
  | (Ok _, out) => (out, 0)
  | (Raise (SystemExit c), out) => (out, c)
  | (Raise (Exc _ _), out) => (out, 1)
  end.

Definition one_file (name text : string) : filesystem :=
  fun f =>
    if String.eqb f name then Ok text
    else Raise (Exc FileNotFoundError
                  ("[Errno 2] No such file or directory: " ++ quote f)).

(** * Specification vocabulary *)

Fixpoint all_chars (p : ascii -> bool) (s : string) : bool :=
  match s with
  | EmptyString => true
  | String c t => p c && all_chars p t
  end.

(** The head of [s], when there is one, does not satisfy [p]. *)
Definition head_not (p : ascii -> bool) (s : string) : bool :=
  match s with
  | EmptyString => true
  | String c _ => negb (p c)
  end.

Definition not_x (c : ascii) : bool := negb (Ascii.eqb c "x").

Definition token_ok (tok : string) : Prop :=
  tok <> "" /\ all_chars class_hex tok = true.

Definition bit_set (v : Z) (item : Z * string) : bool :=
  negb (Z.land v (fst item) =? 0).

Definition sum_Z (l : list Z) : Z := fold_right Z.add 0 l.

Definition sum_counts (d : list (string * Z)) : Z := sum_Z (map snd d).

Definition named (name : string) (item : Z * string) : bool :=
  String.eqb (snd item) name.

Definition lengths (decoded : list (list string)) : Z :=
  sum_Z (map (fun names => Z.of_nat (List.length names)) decoded).

(** The claim of C3 about ties: among output pairs of equal count, a pair
    listed earlier has the smaller table bit. *)
Definition ties_in_bit_order (out : list (string * Z)) : Prop :=
  forall (i j : nat) (n1 n2 : string) (c b1 b2 : Z),
    (i < j)%nat ->
    nth_error out i = Some (n1, c) -> nth_error out j = Some (n2, c) ->
    In (b1, n1) flags_dict -> In (b2, n2) flags_dict -> b1 < b2.

Definition banner : string := repeat_char "=" 60.

Definition open_error_report (filename : string) (cls : exc_class)
    (msg : string) : string :=
  match cls with
  | FileNotFoundError => "Error: File " ++ quote filename ++ " not found!"
  | _ => "Error: " ++ msg
  end.

Definition unreadable (msg : string) : filesystem :=
  fun _ => Raise (Exc PermissionError msg).

Definition finite_float (x : spec_float) : bool :=
  match x with
  | S754_zero _ | S754_finite _ _ _ => true
  | _ => false
  end.

(** [n] tenths is a nearest decimal with one fractional digit to [|x|]. *)
Definition nearest_tenths (x : spec_float) (n : Z) : Prop :=
  match x with
  | S754_zero _ => n = 0
  | S754_finite _ m e =>
      if 0 <=? e then n = Zpos m * 2 ^ e * 10
      else 2 * Z.abs (Zpos m * 10 - n * 2 ^ (- e)) <= 2 ^ (- e)
  | _ => False
  end.

(** [text] is a sign, an integer part, a point and one digit. *)
Definition one_decimal (x : spec_float) (text : string) : Prop :=
  exists (neg : bool) (n : Z),
    0 <= n /\ nearest_tenths x n /\
    text = sign_str neg ++ str_int (n / 10) ++ "." ++ str_int (n mod 10) /\
    String.length (str_int (n mod 10)) = 1%nat.

(** [field] holds [s] whole, padded with spaces on the right up to [width]. *)
Definition left_aligned (width : nat) (s field : string) : Prop :=
  field = s ++ spaces (String.length field - String.length s) /\
  String.length field = Nat.max width (String.length s).

(** [field] holds [s] whole, padded with spaces on the left up to [width]. *)
Definition right_aligned (width : nat) (s field : string) : Prop :=
  field = spaces (String.length field - String.length s) ++ s /\
  String.length field = Nat.max width (String.length s).

Definition line_layout (flag_name : string) (count total : Z)
    (line : string) : Prop :=
  exists (pct : spec_float) (name_field count_field pct_field : string),
    percentage count total = Ok pct /\
    line = name_field ++ " " ++ count_field ++ "/" ++ str_int total
             ++ " (" ++ pct_field ++ "%)" /\
    left_aligned 50 flag_name name_field /\
    right_aligned 3 (str_int count) count_field /\
    right_aligned 5 (format_1f pct) pct_field /\
    (finite_float pct = true -> one_decimal pct (format_1f pct)).

Definition header (total : Z) : string :=
  newline ++ "Flag frequency across " ++ str_int total ++ " files:" ++ newline.

(** The body of the reporting loop. *)
Definition report_item (total : Z) (item : string * Z) : io unit :=
  let (flag_name, count) := item in
  pct <- lift (percentage count total) ;;
  print (report_line flag_name count total pct).

Definition long_name : string :=
  "RF_HighlightedName/RF_EliminateObject/RF_RemappedName/RF_Protected".

(** ** Vocabulary of the further properties *)

(** The number of table entries called [name] whose bit is set in [v]. *)
Definition hits (name : string) (v : Z) : Z :=
  Z.of_nat (List.length (filter (bit_set v) (filter (named name) flags_dict))).

(** The number of times [name] occurs in the decoded lists. *)
Definition occurrences (name : string) (decoded : list (list string)) : Z :=
  sum_Z (map (fun names => Z.of_nat (count_occ string_dec names name)) decoded).

(** The dictionaries the counting loop builds: no key twice, every count
    positive. *)
Definition counts_ok (d : dict) : Prop :=
  NoDup (map fst d) /\ Forall (fun item => 0 < snd item) d.

Definition decode (v : Z) : list string :=
  map snd (filter (bit_set v) flags_dict).

(** The positions of the 32 bits of a flag value. *)
Definition bit_positions : list Z := map Z.of_nat (seq 0 32).

(** The name the table gives to bit [i]. *)
Definition name_of_bit (i : Z) : string :=
  nth (Z.to_nat i) (map snd flags_dict) "".

(** The text made of the gaps, each followed by ["0x"] and a token, and of
    what remains after the last token. *)
Fixpoint weave (gaps tokens : list string) (tail : string) : string :=
  match gaps, tokens with
  | gap :: gaps', tok :: tokens' =>
      gap ++ "0x" ++ tok ++ weave gaps' tokens' tail
  | _, _ => tail
  end.

(** No token is followed by a further hex digit. *)
Fixpoint tokens_maximal (gaps tokens : list string) (tail : string) : Prop :=
  match gaps, tokens with
  | _ :: gaps', _ :: tokens' =>
      head_not class_hex (weave gaps' tokens' tail) = true /\
      tokens_maximal gaps' tokens' tail
  | _, _ => True
  end.

(** The last character of [s] is neither a hex digit nor ["x"]. *)
Fixpoint ends_with_separator (s : string) : bool :=
  match s with
  | EmptyString => false
  | String c t =>
      match t with
      | EmptyString => negb (class_hex c) && negb (Ascii.eqb c "x")
      | String _ _ => ends_with_separator t
      end
  end.

(** The first line of a successful run. *)
Definition found_line (tokens : list string) : string :=
  "Found " ++ str_int (len tokens) ++ " hex values" ++ newline.

(** [open] and [read] raise exceptions, never [SystemExit]. *)
Definition no_exit (fs : filesystem) : Prop :=
  forall filename code, fs filename <> Raise (SystemExit code).

(** A match of the pattern begins at the head of [s]: a lower-case ["0x"]
    and at least one hex digit. *)
Definition starts_match (s : string) : Prop :=
  exists c rest, s = "0x" ++ String c rest /\ class_hex c = true.

(** The scan of a regular-expression search for ["0x"] and one or more hex
    digits: where a match begins, the longest run of digits is the token
    and the scan goes on behind it; elsewhere the scan moves one character
    on. *)
Inductive scans : string -> list string -> Prop :=
| scans_end : scans "" []
| scans_match (digits rest : string) (tokens : list string) :
    digits <> "" ->
    all_chars class_hex digits = true ->
    head_not class_hex rest = true ->
    scans rest tokens ->
    scans ("0x" ++ digits ++ rest) (digits :: tokens)
| scans_skip (c : ascii) (t : string) (tokens : list string) :
    ~ starts_match (String c t) ->
    scans t tokens ->
    scans (String c t) tokens.

(** What the program prints last before it exits with status 1. *)
Definition diagnostic (line : string) : Prop :=
  line = "Usage: python flag_checker.py <filename>" \/
  line = "No hex values found in file!" \/
  exists msg, line = "Error: " ++ msg.

(** * Verification *)

(** ** Characters *)

Ltac each_char c :=
  destruct c as [[] [] [] [] [] [] [] []]; vm_compute; try discriminate;
  try tauto; try (repeat split; congruence).

Lemma class_hex_plain (c : ascii) :
  class_hex c = true ->
  is_space c = false /\ c <> "x"%char /\ c <> "X"%char /\ c <> "_"%char /\
  c <> "-"%char /\ c <> "+"%char.
Proof.
  each_char c.
Qed.

Lemma class_hex_digit (c : ascii) :
  class_hex c = true -> exists d, hex_digit_value c = Some d /\ 0 <= d < 16.
Proof.
  destruct c as [[] [] [] [] [] [] [] []]; intros H;
    try (vm_compute in H; discriminate);
    eexists; (split; [vm_compute; reflexivity | lia]).
Qed.

(** ** Strings *)

Lemma append_assoc (a b c : string) : (a ++ b) ++ c = a ++ (b ++ c).
Proof.
  induction a as [|x a IH]; simpl; [reflexivity | now rewrite IH].
Qed.

Lemma append_empty_r (a : string) : a ++ "" = a.
Proof.
  induction a as [|x a IH]; simpl; [reflexivity | now rewrite IH].
Qed.

Lemma append_length (a b : string) :
  String.length (a ++ b) = (String.length a + String.length b)%nat.
Proof.
  induction a as [|x a IH]; simpl; [reflexivity | now rewrite IH].
Qed.

Lemma spaces_length (n : nat) : String.length (spaces n) = n.
Proof.
  induction n as [|n IH]; simpl; [reflexivity | now rewrite IH].
Qed.

(** ** The pattern at one position *)

Lemma hex_run_split (s : string) :
  s = fst (hex_run s) ++ snd (hex_run s) /\
  all_chars class_hex (fst (hex_run s)) = true /\
  head_not class_hex (snd (hex_run s)) = true.
Proof.
  induction s as [|c t IH]; simpl; [auto|].
  destruct (class_hex c) eqn:Hc.
  - destruct (hex_run t) as [d rest]; simpl in *.
    destruct IH as (-> & Hd & Hr). rewrite Hc. auto.
  - simpl. rewrite Hc. auto.
Qed.

(** The run is greedy: it takes every class character in front of [rest]. *)
Lemma hex_run_greedy (d rest : string) :
  all_chars class_hex d = true -> head_not class_hex rest = true ->
  hex_run (d ++ rest) = (d, rest).
Proof.
  induction d as [|c d IH]; simpl; intros Hd Hr.
  - destruct rest as [|c t]; [reflexivity|].
    simpl in *. destruct (class_hex c); [discriminate | reflexivity].
  - apply andb_true_iff in Hd as [Hc Hd].
    rewrite Hc, (IH Hd Hr). reflexivity.
Qed.

Lemma match_here_token (s d rest : string) :
  match_here s = Some (d, rest) ->
  s = "0x" ++ d ++ rest /\ d <> "" /\ all_chars class_hex d = true /\
  head_not class_hex rest = true.
Proof.
  unfold match_here.
  destruct s as [|c0 [|c1 t]]; try discriminate.
  - destruct c0 as [[] [] [] [] [] [] [] []]; discriminate.
  - intros H.
    assert (Hc : c0 = "0"%char /\ c1 = "x"%char /\
                 match hex_run t with
                 | (EmptyString, _) => None
                 | (d, rest) => Some (d, rest)
                 end = Some (d, rest)).
    { destruct c0 as [[] [] [] [] [] [] [] []]; try discriminate;
        destruct c1 as [[] [] [] [] [] [] [] []]; try discriminate; auto. }
    destruct Hc as (-> & -> & Hr).
    pose proof (hex_run_split t) as (Ht & Hd & Hh).
    destruct (hex_run t) as [d' rest']; simpl in *.
    destruct d'; inversion Hr; subst; repeat split; auto; discriminate.
Qed.

Lemma match_here_0x (d rest : string) :
  d <> "" -> all_chars class_hex d = true -> head_not class_hex rest = true ->
  match_here ("0x" ++ d ++ rest) = Some (d, rest).
Proof.
  intros Hne Hd Hr. simpl. rewrite (hex_run_greedy d rest Hd Hr).
  destruct d; [congruence | reflexivity].
Qed.

(** The pattern needs a lower-case [x] as the second character. *)
Lemma match_here_needs_x (c c' : ascii) (t : string) :
  c' <> "x"%char -> match_here (String c (String c' t)) = None.
Proof.
  intros Hx. unfold match_here.
  destruct c as [[] [] [] [] [] [] [] []]; try reflexivity.
  destruct c' as [[] [] [] [] [] [] [] []]; try reflexivity.
  congruence.
Qed.

Lemma match_here_single (c : ascii) : match_here (String c "") = None.
Proof.
  unfold match_here. destruct c as [[] [] [] [] [] [] [] []]; reflexivity.
Qed.

(** ** The scan *)

Lemma findall_match (s d rest : string) :
  match_here s = Some (d, rest) -> findall s = d :: findall rest.
Proof.
  intros H. destruct s as [|c t]; [discriminate|].
  simp findall.
  generalize (inspect (match_here (String c t))).
  intros [[[d' r']|] e]; simp findall; congruence.
Qed.

Lemma findall_skip (c : ascii) (t : string) :
  match_here (String c t) = None -> findall (String c t) = findall t.
Proof.
  intros H. simp findall.
  generalize (inspect (match_here (String c t))).
  intros [[[d' r']|] e]; simp findall; congruence.
Qed.

Lemma findall_tokens (s : string) : Forall token_ok (findall s).
Proof.
  remember (String.length s) as n eqn:Hn.
  revert s Hn. induction n as [n IH] using lt_wf_ind. intros s ->.
  destruct s as [|c t]; [simp findall; constructor|].
  destruct (match_here (String c t)) as [[d rest]|] eqn:Hm.
  - rewrite (findall_match _ _ _ Hm).
    pose proof (match_here_shorter _ _ _ Hm) as Hl.
    apply match_here_token in Hm as (_ & Hne & Hd & _).
    constructor; [split; assumption|].
    apply (IH (String.length rest)); [exact Hl | reflexivity].
  - rewrite (findall_skip _ _ Hm).
    apply (IH (String.length t)); [simpl; lia | reflexivity].
Qed.

Lemma findall_no_x (s : string) :
  all_chars not_x s = true -> findall s = [].
Proof.
  induction s as [|c t IH]; intros H; [simp findall; reflexivity|].
  simpl in H. apply andb_true_iff in H as [_ Ht].
  rewrite findall_skip; [auto|].
  destruct t as [|c' t']; [apply match_here_single|].
  apply match_here_needs_x. simpl in Ht.
  apply andb_true_iff in Ht as [Hx _]. unfold not_x in Hx.
  intros ->. discriminate.
Qed.

Lemma findall_after_gap (pre d rest : string) :
  all_chars not_x pre = true ->
  d <> "" -> all_chars class_hex d = true -> head_not class_hex rest = true ->
  findall (pre ++ "0x" ++ d ++ rest) = d :: findall rest.
Proof.
  intros Hpre Hne Hd Hr.
  induction pre as [|c pre IH].
  - apply findall_match, match_here_0x; assumption.
  - simpl in Hpre. apply andb_true_iff in Hpre as [_ Hpre].
    change ((String c pre) ++ "0x" ++ d ++ rest)
      with (String c (pre ++ "0x" ++ d ++ rest)).
    rewrite findall_skip; [auto|].
    destruct pre as [|c' pre'].
    + cbn [append]. apply match_here_needs_x. discriminate.
    + cbn [append]. apply match_here_needs_x. simpl in Hpre.
      apply andb_true_iff in Hpre as [Hx _]. unfold not_x in Hx.
      intros ->. discriminate.
Qed.

(** ** [int(tok, 16)] on runs of class characters *)

Lemma lstrip_head (c : ascii) (t : string) :
  is_space c = false -> lstrip (String c t) = String c t.
Proof.
  intros H. simpl. now rewrite H.
Qed.

Lemma rstrip_no_space (s : string) :
  all_chars (fun c => negb (is_space c)) s = true -> rstrip s = s.
Proof.
  induction s as [|c t IH]; simpl; [reflexivity|].
  intros H. apply andb_true_iff in H as [Hc Ht].
  rewrite (IH Ht). apply negb_true_iff in Hc. rewrite Hc.
  destruct t; reflexivity.
Qed.

Lemma all_chars_impl (p q : ascii -> bool) (s : string) :
  (forall c, p c = true -> q c = true) ->
  all_chars p s = true -> all_chars q s = true.
Proof.
  intros Hpq. induction s as [|c t IH]; simpl; [reflexivity|].
  intros H. apply andb_true_iff in H as [Hc Ht].
  rewrite (Hpq c Hc), (IH Ht). reflexivity.
Qed.

Lemma strip_token (tok : string) :
  all_chars class_hex tok = true -> strip tok = tok.
Proof.
  intros H. unfold strip.
  assert (Hl : lstrip tok = tok).
  { destruct tok as [|c t]; [reflexivity|].
    simpl in H. apply andb_true_iff in H as [Hc _].
    apply lstrip_head, (class_hex_plain c Hc). }
  rewrite Hl. apply rstrip_no_space.
  apply (all_chars_impl class_hex); [|exact H].
  intros c Hc. apply negb_true_iff, (class_hex_plain c Hc).
Qed.

Lemma split_sign_token (c : ascii) (t : string) :
  class_hex c = true -> split_sign (String c t) = (false, String c t).
Proof.
  intros Hc. destruct (class_hex_plain c Hc) as (_ & _ & _ & _ & Hm & Hp).
  unfold split_sign.
  destruct c as [[] [] [] [] [] [] [] []]; try reflexivity; congruence.
Qed.

Lemma skip_prefix16_token (s : string) :
  all_chars class_hex s = true -> skip_prefix16 s = s.
Proof.
  destruct s as [|c0 [|c1 t]]; intros H.
  - reflexivity.
  - unfold skip_prefix16.
    destruct c0 as [[] [] [] [] [] [] [] []]; reflexivity.
  - simpl in H. apply andb_true_iff in H as [_ H].
    apply andb_true_iff in H as [H1 _].
    destruct (class_hex_plain c1 H1) as (_ & Hx & HX & _).
    unfold skip_prefix16.
    destruct c0 as [[] [] [] [] [] [] [] []]; try reflexivity;
      destruct c1 as [[] [] [] [] [] [] [] []]; try reflexivity; congruence.
Qed.

Lemma int_digits_after_digit (s : string) (acc : Z) :
  all_chars class_hex s = true -> 0 <= acc ->
  exists n, 0 <= n /\ int_digits s acc AfterDigit = Some n.
Proof.
  revert acc.
  induction s as [|c t IH]; cbn [int_digits all_chars]; intros acc H Hacc.
  - exists acc. auto.
  - apply andb_true_iff in H as [Hc Ht].
    destruct (class_hex_plain c Hc) as (_ & _ & _ & Hu & _).
    destruct (class_hex_digit c Hc) as (d & Hd & Hrange).
    destruct (Ascii.eqb_spec c "_"); [contradiction|].
    rewrite Hd. apply IH; [exact Ht | lia].
Qed.

Lemma int_digits_token (tok : string) :
  token_ok tok -> exists n, 0 <= n /\ int_digits tok 0 AtStart = Some n.
Proof.
  intros [Hne H]. destruct tok as [|c t]; [congruence|].
  cbn [int_digits all_chars] in *. apply andb_true_iff in H as [Hc Ht].
  destruct (class_hex_plain c Hc) as (_ & _ & _ & Hu & _).
  destruct (class_hex_digit c Hc) as (d & Hd & Hrange).
  destruct (Ascii.eqb_spec c "_"); [contradiction|].
  rewrite Hd. apply int_digits_after_digit; [exact Ht | lia].
Qed.

Lemma int16_token (tok : string) :
  token_ok tok -> exists n, 0 <= n /\ int16 tok = Ok n.
Proof.
  intros Htok. pose proof Htok as [Hne H].
  destruct (int_digits_token tok Htok) as (n & Hn & Hdig).
  exists n. split; [exact Hn|].
  unfold int16. rewrite (strip_token tok H).
  destruct tok as [|c t]; [congruence|].
  assert (Hc : class_hex c = true).
  { simpl in H. now apply andb_true_iff in H as [Hc _]. }
  rewrite (split_sign_token c t Hc), (skip_prefix16_token _ H), Hdig.
  reflexivity.
Qed.

Lemma count_flags_tokens (toks : list string) (fc : dict) :
  Forall token_ok toks -> exists fc', count_flags (map PyStr toks) fc = Ok fc'.
Proof.
  intros H. revert fc. induction H as [|tok toks Htok _ IH]; intros fc; simpl.
  - eauto.
  - destruct (int16_token tok Htok) as (n & _ & ->). simpl. apply IH.
Qed.

(** C9: every token of the Extractor parses as a base-16 integer, so the
    aggregation of the extracted tokens never raises: neither [int(tok, 16)]
    nor the counting loop built on it can fail on them. *)
Theorem extracted_tokens_parse (text : string) :
  Forall (fun tok => exists n, 0 <= n /\ to_int (PyStr tok) = Ok n)
         (extract_hex_values text) /\
  exists out, aggregate (map PyStr (extract_hex_values text)) = Ok out.
Proof.
  unfold extract_hex_values. split.
  - eapply Forall_impl; [|apply findall_tokens].
    intros tok Htok. simpl. apply int16_token, Htok.
  - unfold aggregate.
    destruct (count_flags_tokens (findall text) [] (findall_tokens text))
      as (fc & ->).
    simpl. eauto.
Qed.

Lemma match_here_starts (s : string) :
  match_here s = None <-> ~ starts_match s.
Proof.
  split.
  - intros Hn (c & rest & -> & Hc).
    cbn [append] in Hn. unfold match_here in Hn. cbn [hex_run] in Hn.
    rewrite Hc in Hn. destruct (hex_run rest). discriminate.
  - intros Hs. destruct (match_here s) as [[d rest]|] eqn:Hm; [|reflexivity].
    exfalso. apply Hs.
    apply match_here_token in Hm as (-> & Hne & Hd & _).
    destruct d as [|c d]; [congruence|].
    cbn [all_chars] in Hd. apply andb_true_iff in Hd as [Hc _].
    exists c, (d ++ rest). split; [reflexivity | exact Hc].
Qed.

Lemma findall_scans (text : string) : scans text (findall text).
Proof.
  remember (String.length text) as n eqn:Hn.
  revert text Hn. induction n as [n IH] using lt_wf_ind. intros text ->.
  destruct text as [|c t]; [simp findall; constructor|].
  destruct (match_here (String c t)) as [[d rest]|] eqn:Hm.
  - rewrite (findall_match _ _ _ Hm).
    pose proof (match_here_shorter _ _ _ Hm) as Hl.
    apply match_here_token in Hm as (Htext & Hne & Hd & Hrest).
    rewrite Htext. apply scans_match; try assumption.
    apply (IH _ Hl rest eq_refl).
  - rewrite (findall_skip _ _ Hm). apply scans_skip.
    + apply match_here_starts, Hm.
    + apply (IH (String.length t)); [cbn; lia | reflexivity].
Qed.

Lemma scans_findall (text : string) (tokens : list string) :
  scans text tokens -> findall text = tokens.
Proof.
  induction 1 as [|d rest tokens Hne Hd Hrest _ IH|c t tokens Hs _ IH].
  - simp findall. reflexivity.
  - rewrite (findall_match _ d rest); [now rewrite IH|].
    apply match_here_0x; assumption.
  - rewrite findall_skip; [exact IH|]. apply match_here_starts, Hs.
Qed.

(** C2, as the program has it: the prefix is matched case-sensitively, as
    a lower-case [0x] only, the digits in either case.  The tokens of a
    text are exactly those of the scan for the pattern: at each position
    where [0x] and a hex digit begin, the longest run of hex digits is
    extracted (without the prefix) and the scan goes on behind the run; at
    every other position it moves one character on.  So the tokens come in
    order of position, duplicates retained. *)
Theorem extract_hex_values_scans (text : string) (tokens : list string) :
  extract_hex_values text = tokens <-> scans text tokens.
Proof.
  unfold extract_hex_values. split.
  - intros <-. apply findall_scans.
  - apply scans_findall.
Qed.

(** C2 as stated fails: an upper-case [0X] prefix is not matched; and of
    two overlapping substrings of the pattern only the first is extracted. *)
Lemma extract_hex_values_upper_prefix :
  extract_hex_values "0X1F" = [] /\ extract_hex_values "0x1F" = ["1F"] /\
  extract_hex_values "0x0x1F" = ["0"].
Proof.
  repeat split; vm_compute; reflexivity.
Qed.

(** ** The stable sort *)

Section KeySort.
Context {A : Type} (key : A -> Z).

Let klt (a b : A) : bool := key a <? key b.
Let ascending (a b : A) : Prop := key a <= key b.
Let descending (a b : A) : Prop := key a >= key b.
Let has_key (c : Z) (a : A) : bool := key a =? c.

Lemma insert_perm (x : A) (l : list A) : Permutation (x :: l) (insert klt x l).
Proof.
  induction l as [|y l IH]; simpl; [apply Permutation_refl|].
  destruct (klt y x); [|apply Permutation_refl].
  eapply perm_trans; [apply perm_swap|]. apply perm_skip, IH.
Qed.

Lemma stable_sort_perm (l : list A) : Permutation l (stable_sort klt l).
Proof.
  induction l as [|x l IH]; simpl; [constructor|].
  eapply perm_trans; [apply perm_skip, IH | apply insert_perm].
Qed.

Lemma insert_ascending (x : A) (l : list A) :
  StronglySorted ascending l -> StronglySorted ascending (insert klt x l).
Proof.
  induction 1 as [|y l Hs IH Hy]; simpl.
  - repeat constructor.
  - unfold klt at 1. destruct (Z.ltb_spec (key y) (key x)) as [Hlt|Hge].
    + constructor; [exact IH|].
      apply (Permutation_Forall (insert_perm x l)).
      constructor; [unfold ascending; lia | exact Hy].
    + constructor; [constructor; assumption|].
      constructor; [exact Hge|].
      eapply Forall_impl; [|exact Hy].
      unfold ascending. intros a Ha. lia.
Qed.

Lemma stable_sort_ascending (l : list A) :
  StronglySorted ascending (stable_sort klt l).
Proof.
  induction l as [|x l IH]; simpl; [constructor | now apply insert_ascending].
Qed.

Lemma insert_filter (c : Z) (x : A) (l : list A) :
  filter (has_key c) (insert klt x l) = filter (has_key c) (x :: l).
Proof.
  induction l as [|y l IH]; [reflexivity|].
  cbn [insert]. unfold klt at 1.
  destruct (Z.ltb_spec (key y) (key x)) as [Hlt|Hge]; [|reflexivity].
  cbn [filter] in *. rewrite IH. unfold has_key.
  destruct (Z.eqb_spec (key x) c), (Z.eqb_spec (key y) c);
    try reflexivity; lia.
Qed.

Lemma stable_sort_filter (c : Z) (l : list A) :
  filter (has_key c) (stable_sort klt l) = filter (has_key c) l.
Proof.
  induction l as [|x l IH]; [reflexivity|].
  cbn [stable_sort fold_right]. fold (stable_sort klt l).
  rewrite insert_filter. cbn [filter]. now rewrite IH.
Qed.

Lemma rev_descending (l : list A) :
  StronglySorted ascending l -> StronglySorted descending (rev l).
Proof.
  induction 1 as [|x l Hs IH Hx]; simpl; [constructor|].
  assert (Happ : forall l1, StronglySorted descending l1 ->
                   Forall (fun a => descending a x) l1 ->
                   StronglySorted descending (l1 ++ [x])).
  { induction 1 as [|y l1 Hs1 IH1 Hy]; simpl; intros Hall.
    - repeat constructor.
    - inversion Hall; subst. constructor; [apply IH1; assumption|].
      apply Forall_app. split; [exact Hy | repeat constructor; assumption]. }
  apply Happ; [exact IH|].
  apply Forall_rev. eapply Forall_impl; [|exact Hx].
  unfold ascending, descending. intros a Ha. lia.
Qed.

(** [sorted(l, key=key, reverse=True)]: a permutation of [l], in
    descending key order, that keeps elements of equal key in the order
    of [l]. *)
Lemma sorted_reverse_spec (l : list A) :
  Permutation l (sorted klt true l) /\
  StronglySorted descending (sorted klt true l) /\
  forall c, filter (has_key c) (sorted klt true l) = filter (has_key c) l.
Proof.
  unfold sorted. repeat split.
  - eapply perm_trans; [apply Permutation_rev|].
    eapply perm_trans; [apply stable_sort_perm | apply Permutation_rev].
  - apply rev_descending, stable_sort_ascending.
  - intros c. rewrite filter_rev, stable_sort_filter, filter_rev.
    apply rev_involutive.
Qed.
End KeySort.

(** ** The Decoder *)

Lemma sorted_flags_dict : sorted tuple_lt false flags_dict = flags_dict.
Proof.
  vm_compute. reflexivity.
Qed.

Lemma fold_append_if_set (v : Z) (items : list (Z * string)) (acc : list string) :
  fold_left (append_if_set v) items acc
  = (acc ++ map snd (filter (bit_set v) items))%list.
Proof.
  revert acc. induction items as [|[b n] items IH]; intros acc; simpl.
  - now rewrite app_nil_r.
  - rewrite IH. unfold bit_set at 2. simpl.
    destruct (Z.land v b =? 0); simpl; [reflexivity|].
    now rewrite <- app_assoc.
Qed.

Lemma analyze_flags_filter (v : Z) :
  analyze_flags (PyInt v) = Ok (map snd (filter (bit_set v) flags_dict)).
Proof.
  unfold analyze_flags. cbn [to_int res_bind].
  now rewrite sorted_flags_dict, fold_append_if_set.
Qed.

Lemma filter_keys_sorted (p : Z * string -> bool) (l : list (Z * string)) :
  StronglySorted Z.lt (map fst l) ->
  StronglySorted Z.lt (map fst (filter p l)).
Proof.
  induction l as [|x l IH]; simpl; intros H; [constructor|].
  inversion H as [|? ? Hs Hx]; subst.
  destruct (p x); simpl; [|auto].
  constructor; [auto|].
  rewrite Forall_forall in *. intros b Hb. apply Hx.
  apply in_map_iff in Hb as (y & <- & Hy).
  apply in_map, (proj1 (filter_In _ _ _) Hy).
Qed.

Lemma flags_dict_keys_sorted : StronglySorted Z.lt (map fst flags_dict).
Proof.
  unfold flags_dict. cbn [map fst].
  repeat (constructor; [|repeat (constructor; [reflexivity|]); constructor]).
  constructor.
Qed.

(** C1: the Decoder applied to an integer raises nothing and returns the
    names of the table entries whose bit is set in the value
    ([value & bit != 0]), in ascending order of their bits, and no other
    name; applied to 0 it returns the empty list.  This holds for every
    integer, in particular for every [v >= 0]. *)
Theorem analyze_flags_decodes (v : Z) :
  exists hits : list (Z * string),
    analyze_flags (PyInt v) = Ok (map snd hits) /\
    StronglySorted Z.lt (map fst hits) /\
    (forall bit name,
        In (bit, name) hits <-> In (bit, name) flags_dict /\ Z.land v bit <> 0) /\
    analyze_flags (PyInt 0) = Ok [].
Proof.
  exists (filter (bit_set v) flags_dict).
  split; [apply analyze_flags_filter|].
  split; [apply filter_keys_sorted, flags_dict_keys_sorted|].
  split; [|reflexivity].
  intros bit name. rewrite filter_In. unfold bit_set. cbn [fst].
  rewrite negb_true_iff, Z.eqb_neq. reflexivity.
Qed.

(** ** The Aggregator *)

Lemma analyze_flags_unfold (flag_value : pyval) :
  analyze_flags flag_value
  = res_bind (to_int flag_value) (fun v =>
      Ok (map snd (filter (bit_set v) flags_dict))).
Proof.
  unfold analyze_flags. rewrite sorted_flags_dict.
  destruct (to_int flag_value) as [v|e]; cbn [res_bind]; [|reflexivity].
  now rewrite fold_append_if_set.
Qed.

Lemma dict_set_sum (d : dict) (k : string) :
  sum_counts (dict_set d k (dict_get d k 0 + 1)) = sum_counts d + 1.
Proof.
  unfold sum_counts, sum_Z.
  induction d as [|[k' v'] d IH]; cbn [dict_set dict_get]; [reflexivity|].
  destruct (String.eqb k' k); cbn [map snd fold_right] in *; lia.
Qed.

Lemma dict_get_set (d : dict) (k k' : string) (v : Z) :
  dict_get (dict_set d k v) k' 0
  = if String.eqb k k' then v else dict_get d k' 0.
Proof.
  induction d as [|[k0 v0] d IH]; cbn [dict_set dict_get].
  - reflexivity.
  - destruct (String.eqb_spec k0 k) as [->|Hne]; cbn [dict_get].
    + destruct (String.eqb k k'); reflexivity.
    + rewrite IH. destruct (String.eqb_spec k0 k') as [->|Hne'];
        [|reflexivity].
      destruct (String.eqb_spec k k'); [congruence | reflexivity].
Qed.

Lemma count_value_sum (v : Z) (items : list (Z * string)) (fc : dict) :
  sum_counts (fold_left (count_if_set v) items fc)
  = sum_counts fc + Z.of_nat (List.length (filter (bit_set v) items)).
Proof.
  revert fc. induction items as [|[b n] items IH]; intros fc.
  - simpl. lia.
  - cbn [fold_left filter]. rewrite IH. unfold count_if_set, bit_set.
    cbn [fst]. destruct (Z.land v b =? 0); cbn [negb List.length].
    + reflexivity.
    + rewrite dict_set_sum. lia.
Qed.

Lemma count_value_get (v : Z) (name : string) (items : list (Z * string))
    (fc : dict) :
  dict_get (fold_left (count_if_set v) items fc) name 0
  = dict_get fc name 0
    + Z.of_nat (List.length (filter (bit_set v) (filter (named name) items))).
Proof.
  revert fc. induction items as [|[b n] items IH]; intros fc.
  - simpl. lia.
  - cbn [fold_left filter]. rewrite IH. unfold count_if_set.
    unfold named at 2. cbn [snd].
    destruct (String.eqb_spec n name) as [->|Hne]; cbn [filter].
    + unfold bit_set at 2. cbn [fst].
      destruct (Z.land v b =? 0); cbn [negb List.length]; [reflexivity|].
      rewrite dict_get_set, String.eqb_refl. lia.
    + destruct (Z.land v b =? 0); [reflexivity|].
      rewrite dict_get_set.
      destruct (String.eqb_spec n name); [congruence | reflexivity].
Qed.

Lemma count_occ_decoded (v : Z) (name : string) (items : list (Z * string)) :
  count_occ string_dec (map snd (filter (bit_set v) items)) name
  = List.length (filter (bit_set v) (filter (named name) items)).
Proof.
  induction items as [|[b n] items IH]; [reflexivity|].
  cbn [filter]. unfold named at 1. cbn [snd].
  destruct (String.eqb_spec n name) as [->|Hne]; cbn [filter].
  - destruct (bit_set v (b, name)); cbn [map snd count_occ List.length];
      [|exact IH].
    destruct (string_dec name name); [now rewrite IH | congruence].
  - destruct (bit_set v (b, n)); cbn [map snd count_occ]; [|exact IH].
    destruct (string_dec n name); [congruence | exact IH].
Qed.

Lemma count_flags_sum (flag_list : list pyval) (fc fc' : dict) :
  count_flags flag_list fc = Ok fc' ->
  exists decoded,
    Forall2 (fun fv names => analyze_flags fv = Ok names) flag_list decoded /\
    sum_counts fc' = sum_counts fc + lengths decoded.
Proof.
  revert fc. induction flag_list as [|fv rest IH]; intros fc; cbn [count_flags].
  - intros [= <-]. exists []. split; [apply Forall2_nil|].
    unfold lengths, sum_Z. cbn [map fold_right]. lia.
  - destruct (to_int fv) as [v|e] eqn:Hv; cbn [res_bind]; [|discriminate].
    intros H. destruct (IH _ H) as (decoded & Hall & Hsum).
    exists (map snd (filter (bit_set v) flags_dict) :: decoded). split.
    + constructor; [|exact Hall].
      rewrite analyze_flags_unfold, Hv. reflexivity.
    + rewrite Hsum. unfold count_value. rewrite count_value_sum.
      unfold lengths. cbn [map sum_Z fold_right]. rewrite length_map.
      fold (sum_Z (map (fun names => Z.of_nat (List.length names)) decoded)).
      lia.
Qed.

Lemma sum_counts_perm (d d' : list (string * Z)) :
  Permutation d d' -> sum_counts d = sum_counts d'.
Proof.
  unfold sum_counts, sum_Z.
  induction 1; cbn [map fold_right] in *; lia.
Qed.

Lemma aggregate_inv (flag_list : list pyval) (out : list (string * Z)) :
  aggregate flag_list = Ok out ->
  exists fc, count_flags flag_list [] = Ok fc /\ out = sorted_flags fc.
Proof.
  unfold aggregate. destruct (count_flags flag_list []) as [fc|e];
    cbn [res_bind]; [|discriminate].
  intros [= <-]. eauto.
Qed.

(** C6: whenever the aggregation of a sequence of values returns, every
    value decodes, and the counts of the output add up to the total length
    of the decoded name lists.  (The sequence may also be empty.) *)
Theorem aggregate_counts_total (flag_list : list pyval)
    (out : list (string * Z)) :
  aggregate flag_list = Ok out ->
  exists decoded,
    Forall2 (fun fv names => analyze_flags fv = Ok names) flag_list decoded /\
    sum_counts out = lengths decoded.
Proof.
  intros H. apply aggregate_inv in H as (fc & Hfc & ->).
  destruct (count_flags_sum _ _ _ Hfc) as (decoded & Hall & Hsum).
  exists decoded. split; [exact Hall|].
  rewrite <- (sum_counts_perm fc (sorted_flags fc)).
  - rewrite Hsum. reflexivity.
  - apply (sorted_reverse_spec snd).
Qed.

Lemma aggregate_counts_total_witness :
  exists decoded,
    Forall2 (fun fv names => analyze_flags fv = Ok names)
            [PyStr "C0000005"; PyInt 1; PyStr "0x6"] decoded /\
    sum_counts [("RF_Transactional", 2); ("RF_Public", 2);
                ("RF_DebugDestroy", 2); ("RF_Unreachable", 1)]
    = lengths decoded.
Proof.
  apply (aggregate_counts_total [PyStr "C0000005"; PyInt 1; PyStr "0x6"]).
  vm_compute. reflexivity.
Defined.

(** C3 as stated fails: ties follow the order in which the names were
    first counted, which is not the bit order of the table. *)
Lemma aggregate_ties_not_in_bit_order :
  aggregate (map PyStr (extract_hex_values "0x4 0x1"))
  = Ok [("RF_Public", 1); ("RF_Transactional", 1)] /\
  ~ ties_in_bit_order [("RF_Public", 1); ("RF_Transactional", 1)].
Proof.
  split; [vm_compute; reflexivity|].
  intros H.
  specialize (H 0%nat 1%nat "RF_Public" "RF_Transactional" 1 4 1).
  assert (Hlt : 4 < 1); [|lia].
  apply H; [lia | reflexivity | reflexivity | |].
  - right. right. left. reflexivity.
  - left. reflexivity.
Qed.

(** C3, as the program has it: the output is the content of the
    FrequencyCount mapping sorted by descending count, and the sort is
    stable: the pairs of any one count appear in the mapping's insertion
    order. *)
Theorem aggregate_sorted_stable (flag_list : list pyval)
    (out : list (string * Z)) :
  aggregate flag_list = Ok out ->
  exists flag_counts,
    count_flags flag_list [] = Ok flag_counts /\
    Permutation flag_counts out /\
    StronglySorted (fun a b => snd a >= snd b) out /\
    forall c, filter (fun item => snd item =? c) out
              = filter (fun item => snd item =? c) flag_counts.
Proof.
  intros H. apply aggregate_inv in H as (fc & Hfc & ->).
  exists fc. split; [exact Hfc|].
  apply (sorted_reverse_spec snd).
Qed.

Lemma aggregate_sorted_stable_witness :
  exists flag_counts,
    count_flags [PyStr "4"; PyStr "3"; PyStr "2"] [] = Ok flag_counts /\
    Permutation flag_counts
      [("RF_Unreachable", 2); ("RF_Public", 1); ("RF_Transactional", 1)] /\
    StronglySorted (fun a b => snd a >= snd b)
      [("RF_Unreachable", 2); ("RF_Public", 1); ("RF_Transactional", 1)] /\
    forall c, filter (fun item => snd item =? c)
                [("RF_Unreachable", 2); ("RF_Public", 1); ("RF_Transactional", 1)]
              = filter (fun item => snd item =? c) flag_counts.
Proof.
  apply (aggregate_sorted_stable [PyStr "4"; PyStr "3"; PyStr "2"]).
  vm_compute. reflexivity.
Defined.

(** ** The duplicated name *)

Lemma named_debug_destroy :
  filter (named "RF_DebugDestroy") flags_dict
  = [(0x40000000, "RF_DebugDestroy"); (0x80000000, "RF_DebugDestroy")].
Proof.
  vm_compute. reflexivity.
Qed.

Lemma both_bits_hit (v : Z) :
  Z.land v 0x40000000 <> 0 -> Z.land v 0x80000000 <> 0 ->
  List.length
    (filter (bit_set v) (filter (named "RF_DebugDestroy") flags_dict)) = 2%nat.
Proof.
  intros H30 H31. rewrite named_debug_destroy.
  apply Z.eqb_neq in H30, H31.
  cbn [filter]. unfold bit_set. cbn [fst]. rewrite H30, H31. reflexivity.
Qed.

(** C10: a value with bits 0x40000000 and 0x80000000 both set decodes to a
    list that holds "RF_DebugDestroy" twice, and counting that one value
    raises the name's count by two; so a count can exceed the number of
    tokens and a percentage can exceed 100.0%, as for the single token
    C0000000. *)
Theorem debug_destroy_counted_twice (v : Z) :
  Z.land v 0x40000000 <> 0 ->
  Z.land v 0x80000000 <> 0 ->
  (exists names,
      analyze_flags (PyInt v) = Ok names /\
      count_occ string_dec names "RF_DebugDestroy" = 2%nat) /\
  (forall flag_counts,
      dict_get (count_value flag_counts v) "RF_DebugDestroy" 0
      = dict_get flag_counts "RF_DebugDestroy" 0 + 2) /\
  aggregate [PyStr "C0000000"] = Ok [("RF_DebugDestroy", 2)] /\
  len [PyStr "C0000000"] = 1 /\
  analyze_multiple [PyStr "C0000000"] []
  = (Ok tt,
     [banner; "ANALYZING FLAGS"; banner;
      newline ++ "Flag frequency across 1 files:" ++ newline;
      "RF_DebugDestroy                                      2/1 (200.0%)"]).
Proof.
  intros H30 H31. split; [|split].
  - eexists. split; [apply analyze_flags_filter|].
    rewrite count_occ_decoded. apply both_bits_hit; assumption.
  - intros fc. unfold count_value.
    rewrite count_value_get, (both_bits_hit v H30 H31). reflexivity.
  - split; [vm_compute; reflexivity|].
    split; vm_compute; reflexivity.
Qed.

Lemma debug_destroy_counted_twice_witness :
  (exists names,
      analyze_flags (PyInt 0xC0000005) = Ok names /\
      count_occ string_dec names "RF_DebugDestroy" = 2%nat) /\
  (forall flag_counts,
      dict_get (count_value flag_counts 0xC0000005) "RF_DebugDestroy" 0
      = dict_get flag_counts "RF_DebugDestroy" 0 + 2) /\
  aggregate [PyStr "C0000000"] = Ok [("RF_DebugDestroy", 2)] /\
  len [PyStr "C0000000"] = 1 /\
  analyze_multiple [PyStr "C0000000"] []
  = (Ok tt,
     [banner; "ANALYZING FLAGS"; banner;
      newline ++ "Flag frequency across 1 files:" ++ newline;
      "RF_DebugDestroy                                      2/1 (200.0%)"]).
Proof.
  apply (debug_destroy_counted_twice 0xC0000005); vm_compute; discriminate.
Defined.

(** ** The command line *)

(** C8: when the file is read and holds no hexadecimal token, the program
    prints only "No hex values found in file!" and exits with status 1. *)
Theorem no_hex_values_exit (prog filename content : string) (fs : filesystem) :
  fs filename = Ok content ->
  extract_hex_values content = [] ->
  run [prog; filename] fs = (["No hex values found in file!"], 1).
Proof.
  intros Hfs Hex.
  unfold run, main, try_except, bind, lift. rewrite Hfs, Hex. reflexivity.
Qed.

Lemma no_hex_values_exit_witness :
  run ["flag_checker.py"; "empty.txt"] (one_file "empty.txt" "")
  = (["No hex values found in file!"], 1).
Proof.
  apply (no_hex_values_exit "flag_checker.py" "empty.txt" "");
    vm_compute; reflexivity.
Defined.

(** C4, as the program has it: when opening or reading the file raises
    FileNotFoundError the program prints "Error: File '<filename>' not
    found!"; when it raises any other exception (a permission error, for
    one) the program prints "Error: <message>"; in both cases nothing else
    is printed and the exit status is 1. *)
Theorem open_failure_exit (prog filename msg : string) (cls : exc_class)
    (fs : filesystem) :
  fs filename = Raise (Exc cls msg) ->
  run [prog; filename] fs = ([open_error_report filename cls msg], 1).
Proof.
  intros Hfs.
  unfold run, main, try_except, bind, lift. rewrite Hfs.
  destruct cls; reflexivity.
Qed.

Lemma open_failure_exit_witness :
  run ["flag_checker.py"; "gone.txt"] (one_file "flags.txt" "0x1")
  = (["Error: File 'gone.txt' not found!"], 1).
Proof.
  apply (open_failure_exit "flag_checker.py" "gone.txt"
           "[Errno 2] No such file or directory: 'gone.txt'"
           FileNotFoundError).
  vm_compute. reflexivity.
Defined.

(** C4 as stated fails: a file that cannot be opened for lack of
    permission is not reported as not found. *)
Lemma permission_error_not_reported_as_not_found :
  run ["flag_checker.py"; "secret.txt"]
      (unreadable "[Errno 13] Permission denied: 'secret.txt'")
  = (["Error: [Errno 13] Permission denied: 'secret.txt'"], 1) /\
  run ["flag_checker.py"; "secret.txt"]
      (unreadable "[Errno 13] Permission denied: 'secret.txt'")
  <> (["Error: File 'secret.txt' not found!"], 1).
Proof.
  split; [vm_compute; reflexivity | vm_compute; discriminate].
Qed.

(** C7: on the text "flags: 0x00000005 0x00000001" the Extractor yields two
    tokens, the Aggregator counts RF_Transactional twice and RF_Public
    once, and the report lists RF_Transactional first with 2/2 (100.0%) and
    then RF_Public with 1/2 ( 50.0%). *)
Theorem scenario_two_tokens :
  extract_hex_values "flags: 0x00000005 0x00000001" = ["00000005"; "00000001"] /\
  aggregate (map PyStr (extract_hex_values "flags: 0x00000005 0x00000001"))
  = Ok [("RF_Transactional", 2); ("RF_Public", 1)] /\
  run ["flag_checker.py"; "flags.txt"]
      (one_file "flags.txt" "flags: 0x00000005 0x00000001")
  = (["Found 2 hex values" ++ newline;
      banner; "ANALYZING FLAGS"; banner;
      newline ++ "Flag frequency across 2 files:" ++ newline;
      "RF_Transactional                                     2/2 (100.0%)";
      "RF_Public                                            1/2 ( 50.0%)"],
     0).
Proof.
  split; [vm_compute; reflexivity|].
  split; vm_compute; reflexivity.
Qed.

(** ** The Reporter *)

Lemma ljust_aligned (width : nat) (s : string) :
  left_aligned width s (ljust width s).
Proof.
  unfold left_aligned, ljust.
  rewrite append_length, spaces_length. split; [f_equal; f_equal|]; lia.
Qed.

Lemma rjust_aligned (width : nat) (s : string) :
  right_aligned width s (rjust width s).
Proof.
  unfold right_aligned, rjust.
  rewrite append_length, spaces_length. split; [f_equal; f_equal|]; lia.
Qed.

Lemma str_int_digit (d : Z) :
  0 <= d < 10 -> String.length (str_int d) = 1%nat.
Proof.
  intros H.
  assert (Hd : d = 0 \/ d = 1 \/ d = 2 \/ d = 3 \/ d = 4 \/ d = 5 \/ d = 6 \/
               d = 7 \/ d = 8 \/ d = 9) by lia.
  repeat (destruct Hd as [-> | Hd]; [reflexivity|]). subst. reflexivity.
Qed.

Lemma round_half_even_nearest (num den : Z) :
  0 < den -> 0 <= num ->
  0 <= round_half_even num den /\
  2 * Z.abs (num - round_half_even num den * den) <= den.
Proof.
  intros Hden Hnum. unfold round_half_even.
  pose proof (Z.div_mod num den ltac:(lia)) as Hdm.
  pose proof (Z.mod_pos_bound num den Hden) as Hr.
  pose proof (Z.div_pos num den Hnum Hden) as Hq.
  destruct (Z.compare_spec (2 * (num mod den)) den) as [Heq|Hlt|Hgt].
  - destruct (Z.even (num / den)); split; nia.
  - split; nia.
  - split; nia.
Qed.

Lemma tenths_nearest (s : bool) (m : positive) (e : Z) :
  0 <= tenths m e /\ nearest_tenths (S754_finite s m e) (tenths m e).
Proof.
  unfold tenths, nearest_tenths.
  destruct (Z.leb_spec 0 e) as [He|He].
  - split; [|reflexivity].
    pose proof (Z.pow_nonneg 2 e ltac:(lia)). nia.
  - assert (Hp : 0 < 2 ^ (- e)) by (apply Z.pow_pos_nonneg; lia).
    apply round_half_even_nearest; lia.
Qed.

Lemma format_1f_one_decimal (x : spec_float) :
  finite_float x = true -> one_decimal x (format_1f x).
Proof.
  destruct x as [s|s| |s m e]; try discriminate; intros _.
  - exists s, 0. repeat split; reflexivity || lia.
  - destruct (tenths_nearest s m e) as [Hn Hnear].
    exists s, (tenths m e). repeat split; try assumption.
    apply str_int_digit, Z.mod_pos_bound. lia.
Qed.

Lemma one_line_layout (flag_name : string) (count total : Z)
    (pct : spec_float) :
  percentage count total = Ok pct ->
  line_layout flag_name count total (report_line flag_name count total pct).
Proof.
  intros Hpct.
  exists pct, (ljust 50 flag_name), (rjust 3 (str_int count)),
    (rjust 5 (format_1f pct)).
  split; [exact Hpct|]. split; [reflexivity|].
  split; [apply ljust_aligned|]. split; [apply rjust_aligned|].
  split; [apply rjust_aligned | apply format_1f_one_decimal].
Qed.

Lemma for_each_report (total : Z) (items : list (string * Z))
    (out0 out : list string) :
  for_each items (report_item total) out0 = (Ok tt, out) ->
  exists lines,
    out = (out0 ++ lines)%list /\
    Forall2 (fun item line => line_layout (fst item) (snd item) total line)
            items lines.
Proof.
  revert out0. induction items as [|[name count] items IH]; intros out0.
  - cbn [for_each]. unfold ret. intros [= <-].
    exists []. split; [now rewrite app_nil_r | constructor].
  - cbn [for_each]. unfold bind at 1. unfold report_item at 1.
    unfold bind at 1, lift, print.
    destruct (percentage count total) as [pct|e] eqn:Hpct; [|discriminate].
    intros H. destruct (IH _ H) as (lines & -> & Hall).
    exists (report_line name count total pct :: lines). split.
    + rewrite <- app_assoc. reflexivity.
    + constructor; [|exact Hall]. apply one_line_layout, Hpct.
Qed.

Lemma analyze_multiple_unfold (flag_list : list pyval) (out0 : list string) :
  analyze_multiple flag_list out0
  = match count_flags flag_list [] with
    | Ok flag_counts =>
        for_each (sorted_flags flag_counts) (report_item (len flag_list))
          ((((out0 ++ [banner]) ++ ["ANALYZING FLAGS"]) ++ [banner])
             ++ [header (len flag_list)])%list
    | Raise e =>
        (Raise e, (((out0 ++ [banner]) ++ ["ANALYZING FLAGS"]) ++ [banner])%list)
    end.
Proof.
  unfold analyze_multiple, bind, print, lift.
  destruct (count_flags flag_list []); reflexivity.
Qed.

(** C5, as the program has it: after the banner and the header, the report
    has one line per pair of the aggregation, in its order.  A line is the
    flag name left-aligned in a field of at least 50 characters (padded
    with spaces, never truncated), a space, the count right-aligned in a
    field of at least 3 characters, "/", the total, " (", the percentage
    [count / total * 100] in fixed-point notation, right-aligned in a field
    of at least 5 characters, and "%)"; a finite percentage is written with
    exactly one digit after the point, rounded to the nearest tenth. *)
Theorem report_lines_layout (flag_list : list pyval) (out : list string) :
  analyze_multiple flag_list [] = (Ok tt, out) ->
  exists (pairs : list (string * Z)) (lines : list string),
    aggregate flag_list = Ok pairs /\
    out = ([banner; "ANALYZING FLAGS"; banner; header (len flag_list)]
             ++ lines)%list /\
    Forall2 (fun item line =>
               line_layout (fst item) (snd item) (len flag_list) line)
            pairs lines.
Proof.
  rewrite analyze_multiple_unfold. unfold aggregate.
  destruct (count_flags flag_list []) as [fc|e]; [|discriminate].
  intros H. apply for_each_report in H as (lines & -> & Hall).
  exists (sorted_flags fc), lines. repeat split; assumption.
Qed.

Lemma report_lines_layout_witness :
  exists (pairs : list (string * Z)) (lines : list string),
    aggregate [PyStr "00000005"; PyStr "00000001"] = Ok pairs /\
    [banner; "ANALYZING FLAGS"; banner;
     newline ++ "Flag frequency across 2 files:" ++ newline;
     "RF_Transactional                                     2/2 (100.0%)";
     "RF_Public                                            1/2 ( 50.0%)"]
    = ([banner; "ANALYZING FLAGS"; banner;
        header (len [PyStr "00000005"; PyStr "00000001"])] ++ lines)%list /\
    Forall2 (fun item line =>
               line_layout (fst item) (snd item)
                 (len [PyStr "00000005"; PyStr "00000001"]) line)
            pairs lines.
Proof.
  apply (report_lines_layout [PyStr "00000005"; PyStr "00000001"]).
  vm_compute. reflexivity.
Defined.

(** C5 as stated fails: the name field is not cut to 50 characters; the
    66-character name of bit 0x400 is printed whole. *)
Lemma long_name_not_truncated :
  In (0x400, long_name) flags_dict /\
  String.length long_name = 66%nat /\
  analyze_multiple [PyStr "400"] []
  = (Ok tt,
     [banner; "ANALYZING FLAGS"; banner;
      newline ++ "Flag frequency across 1 files:" ++ newline;
      long_name ++ "   1/1 (100.0%)"]).
Proof.
  split; [|split].
  - do 10 right. left. reflexivity.
  - reflexivity.
  - vm_compute. reflexivity.
Qed.

(** * Further properties of the aggregation *)

(** ** Lookup in a dictionary *)

Lemma dict_get_cases (d : dict) (k : string) (default : Z) :
  In (k, dict_get d k default) d \/
  (~ In k (map fst d) /\ dict_get d k default = default).
Proof.
  induction d as [|[k' v'] d IH]; cbn [dict_get map fst In].
  - right. auto.
  - destruct (String.eqb_spec k' k) as [->|Hne].
    + left. left. reflexivity.
    + destruct IH as [IH|[IH1 IH2]]; [left; right; exact IH|].
      right. split; [|exact IH2]. intros [H|H]; [congruence | contradiction].
Qed.

Lemma dict_get_In (d : dict) (k : string) (v default : Z) :
  NoDup (map fst d) -> In (k, v) d -> dict_get d k default = v.
Proof.
  induction d as [|[k' v'] d IH]; cbn [dict_get map fst In]; [tauto|].
  intros Hnd [H|H]; inversion Hnd as [|? ? Hk Hd]; subst.
  - inversion H; subst. now rewrite String.eqb_refl.
  - destruct (String.eqb_spec k' k) as [->|Hne]; [|auto].
    exfalso. apply Hk. apply (in_map fst) in H. exact H.
Qed.

Lemma dict_get_perm (d d' : dict) (k : string) (default : Z) :
  NoDup (map fst d) -> Permutation d d' ->
  dict_get d k default = dict_get d' k default.
Proof.
  intros Hnd Hp.
  assert (Hnd' : NoDup (map fst d')).
  { eapply Permutation_NoDup; [apply Permutation_map, Hp | exact Hnd]. }
  destruct (dict_get_cases d k default) as [Hin|[Hout Hdef]].
  - symmetry. apply dict_get_In; [exact Hnd'|].
    eapply Permutation_in; [exact Hp | exact Hin].
  - rewrite Hdef.
    destruct (dict_get_cases d' k default) as [Hin'|[_ Hdef']];
      [|now rewrite Hdef'].
    exfalso. apply Hout.
    apply (in_map fst) in Hin'. cbn [fst] in Hin'.
    eapply Permutation_in; [apply Permutation_map, Permutation_sym, Hp|].
    exact Hin'.
Qed.

Lemma dict_set_keys_in (d : dict) (k x : string) (v : Z) :
  In x (map fst (dict_set d k v)) -> x = k \/ In x (map fst d).
Proof.
  induction d as [|[k' v'] d IH]; cbn [dict_set map fst In].
  - intros [H|[]]. auto.
  - destruct (String.eqb_spec k' k) as [->|Hne]; cbn [map fst In].
    + intros [H|H]; auto.
    + intros [H|H]; [auto|]. destruct (IH H); auto.
Qed.

Lemma dict_set_counts_ok (d : dict) (k : string) (v : Z) :
  counts_ok d -> 0 < v -> counts_ok (dict_set d k v).
Proof.
  intros [Hnd Hpos] Hv. induction d as [|[k' v'] d IH].
  - split; cbn [dict_set map fst]; repeat constructor; [intros []|exact Hv].
  - inversion Hnd as [|? ? Hk Hd]; inversion Hpos as [|? ? Hv' Hp']; subst.
    cbn [dict_set]. destruct (String.eqb_spec k' k) as [->|Hne].
    + split; [exact Hnd|]. constructor; [exact Hv | exact Hp'].
    + destruct (IH Hd Hp') as [IHnd IHpos].
      split; cbn [map fst].
      * constructor; [|exact IHnd]. intros H.
        apply dict_set_keys_in in H as [H|H]; [congruence | contradiction].
      * constructor; assumption.
Qed.

Lemma dict_get_nonneg (d : dict) (k : string) :
  Forall (fun item => 0 < snd item) d -> 0 <= dict_get d k 0.
Proof.
  induction 1 as [|[k' v'] d Hv _ IH]; cbn [dict_get]; [lia|].
  destruct (String.eqb k' k); [cbn [snd] in Hv; lia | exact IH].
Qed.

Lemma count_value_counts_ok (v : Z) (items : list (Z * string)) (fc : dict) :
  counts_ok fc -> counts_ok (fold_left (count_if_set v) items fc).
Proof.
  revert fc. induction items as [|[b n] items IH]; intros fc Hfc; [exact Hfc|].
  cbn [fold_left]. apply IH. unfold count_if_set.
  destruct (Z.land v b =? 0); [exact Hfc|].
  apply dict_set_counts_ok; [exact Hfc|].
  pose proof (dict_get_nonneg fc n (proj2 Hfc)). lia.
Qed.

(** ** The counting loop, name by name *)

Lemma count_flags_get (flag_list : list pyval) (fc fc' : dict) :
  count_flags flag_list fc = Ok fc' ->
  exists values,
    Forall2 (fun fv v => to_int fv = Ok v) flag_list values /\
    (counts_ok fc -> counts_ok fc') /\
    forall name,
      dict_get fc' name 0
      = dict_get fc name 0 + sum_Z (map (hits name) values).
Proof.
  revert fc. induction flag_list as [|fv rest IH]; intros fc; cbn [count_flags].
  - intros [= <-]. exists []. split; [apply Forall2_nil|].
    split; [auto|]. intros name. cbn [map sum_Z fold_right]. lia.
  - destruct (to_int fv) as [v|e] eqn:Hv; cbn [res_bind]; [|discriminate].
    intros H. destruct (IH _ H) as (values & Hall & Hok & Hget).
    exists (v :: values). split; [constructor; assumption|]. split.
    + intros Hfc. apply Hok. apply count_value_counts_ok, Hfc.
    + intros name. rewrite Hget. unfold count_value.
      rewrite count_value_get. cbn [map sum_Z fold_right].
      fold (sum_Z (map (hits name) values)). unfold hits at 2. lia.
Qed.

Lemma count_flags_total (flag_list : list pyval) (values : list Z) (fc : dict) :
  Forall2 (fun fv v => to_int fv = Ok v) flag_list values ->
  exists fc', count_flags flag_list fc = Ok fc'.
Proof.
  intros H. revert fc. induction H as [|fv v rest values Hv _ IH]; intros fc.
  - cbn [count_flags]. eauto.
  - cbn [count_flags]. rewrite Hv. cbn [res_bind]. apply IH.
Qed.

Lemma counts_ok_nil : counts_ok [].
Proof.
  split; constructor.
Qed.

Lemma hits_occurrences (name : string) (values : list Z) :
  sum_Z (map (hits name) values) = occurrences name (map decode values).
Proof.
  unfold occurrences. rewrite map_map. f_equal. apply map_ext.
  intros v. unfold hits, decode. now rewrite count_occ_decoded.
Qed.

Lemma decoded_values (flag_list : list pyval) (values : list Z) :
  Forall2 (fun fv v => to_int fv = Ok v) flag_list values ->
  Forall2 (fun fv names => analyze_flags fv = Ok names) flag_list
          (map decode values).
Proof.
  induction 1 as [|fv v rest values Hv _ IH]; cbn [map]; constructor;
    [|exact IH].
  rewrite analyze_flags_unfold, Hv. unfold decode. cbn [res_bind].
  reflexivity.
Qed.

Lemma In_counts (d : dict) (name : string) (count : Z) :
  counts_ok d ->
  In (name, count) d <-> dict_get d name 0 = count /\ 0 < count.
Proof.
  intros [Hnd Hpos]. split.
  - intros Hin. split; [apply dict_get_In; assumption|].
    rewrite Forall_forall in Hpos. apply (Hpos _ Hin).
  - intros [<- Hc].
    destruct (dict_get_cases d name 0) as [Hin|[_ Hdef]]; [exact Hin | lia].
Qed.

(** The aggregation unfolded: the values, the mapping and the output. *)
Lemma aggregate_counts (flag_list : list pyval) (out : list (string * Z)) :
  aggregate flag_list = Ok out ->
  exists values fc,
    Forall2 (fun fv v => to_int fv = Ok v) flag_list values /\
    counts_ok fc /\ Permutation fc out /\
    forall name, dict_get fc name 0 = sum_Z (map (hits name) values).
Proof.
  intros H. apply aggregate_inv in H as (fc & Hfc & ->).
  destruct (count_flags_get _ _ _ Hfc) as (values & Hall & Hok & Hget).
  exists values, fc. split; [exact Hall|].
  split; [apply Hok, counts_ok_nil|].
  split; [apply (sorted_reverse_spec snd)|].
  intros name. rewrite Hget. reflexivity.
Qed.

Lemma counts_ok_perm (d d' : dict) :
  Permutation d d' -> counts_ok d -> counts_ok d'.
Proof.
  intros Hp [Hnd Hpos]. split.
  - eapply Permutation_NoDup; [apply Permutation_map, Hp | exact Hnd].
  - eapply Permutation_Forall; [exact Hp | exact Hpos].
Qed.

(** X1: the output of the aggregation names no flag twice. *)
Theorem aggregate_names_distinct (flag_list : list pyval)
    (out : list (string * Z)) :
  aggregate flag_list = Ok out -> NoDup (map fst out).
Proof.
  intros H. apply aggregate_counts in H as (values & fc & _ & Hok & Hp & _).
  apply (counts_ok_perm fc out Hp Hok).
Qed.

Lemma aggregate_names_distinct_witness :
  NoDup (map fst [("RF_DebugDestroy", 3); ("RF_Transactional", 1)]).
Proof.
  apply (aggregate_names_distinct [PyStr "C0000001"; PyInt 0x40000000]).
  vm_compute. reflexivity.
Defined.

(** X2: a pair (name, count) is in the output exactly when [count] is the
    number of times the Decoder reports [name] over all the values, and
    that number is positive. *)
Theorem aggregate_count_is_occurrences (flag_list : list pyval)
    (out : list (string * Z)) :
  aggregate flag_list = Ok out ->
  exists decoded,
    Forall2 (fun fv names => analyze_flags fv = Ok names) flag_list decoded /\
    forall name count,
      In (name, count) out <->
      count = occurrences name decoded /\ 0 < count.
Proof.
  intros H. apply aggregate_counts in H as (values & fc & Hall & Hok & Hp & Hget).
  exists (map decode values). split; [apply decoded_values, Hall|].
  intros name count. rewrite <- hits_occurrences, <- Hget. split.
  - intros Hin. apply (Permutation_in _ (Permutation_sym Hp)) in Hin.
    apply (In_counts fc name count Hok) in Hin as [Hget' Hc]. auto.
  - intros [Hc Hpos]. apply (Permutation_in _ Hp).
    apply (In_counts fc name count Hok). auto.
Qed.

Lemma aggregate_count_is_occurrences_witness :
  exists decoded,
    Forall2 (fun fv names => analyze_flags fv = Ok names)
            [PyStr "C0000001"; PyInt 0x40000000] decoded /\
    forall name count,
      In (name, count) [("RF_DebugDestroy", 3); ("RF_Transactional", 1)] <->
      count = occurrences name decoded /\ 0 < count.
Proof.
  apply (aggregate_count_is_occurrences [PyStr "C0000001"; PyInt 0x40000000]).
  vm_compute. reflexivity.
Defined.

(** ** What the table allows *)

Lemma filter_named_nil (name : string) (items : list (Z * string)) :
  ~ In name (map snd items) -> filter (named name) items = [].
Proof.
  induction items as [|[b n] items IH]; cbn [map snd In filter];
    [reflexivity|].
  intros H. unfold named at 1. cbn [snd].
  destruct (String.eqb_spec n name) as [->|Hne]; [tauto|].
  apply IH. tauto.
Qed.

Lemma named_at_most_two (name : string) :
  (List.length (filter (named name) flags_dict) <= 2)%nat.
Proof.
  destruct (in_dec string_dec name (map snd flags_dict)) as [Hin|Hout].
  - unfold flags_dict in Hin. cbn [map snd In] in Hin.
    repeat (destruct Hin as [<-|Hin]; [vm_compute; repeat constructor|]).
    contradiction.
  - rewrite (filter_named_nil name flags_dict Hout). cbn. lia.
Qed.

Lemma hits_bounds (name : string) (v : Z) : 0 <= hits name v <= 2.
Proof.
  unfold hits. pose proof (named_at_most_two name) as H2.
  pose proof (filter_length_le (bit_set v) (filter (named name) flags_dict)).
  lia.
Qed.

Lemma hits_outside_table (name : string) (v : Z) :
  ~ In name (map snd flags_dict) -> hits name v = 0.
Proof.
  intros H. unfold hits. now rewrite (filter_named_nil name flags_dict H).
Qed.

Lemma sum_hits_bounds (name : string) (values : list Z) :
  0 <= sum_Z (map (hits name) values) <= 2 * Z.of_nat (List.length values).
Proof.
  induction values as [|v values IH]; cbn [map sum_Z fold_right List.length].
  - lia.
  - fold (sum_Z (map (hits name) values)).
    pose proof (hits_bounds name v). lia.
Qed.

Lemma sum_hits_outside_table (name : string) (values : list Z) :
  ~ In name (map snd flags_dict) -> sum_Z (map (hits name) values) = 0.
Proof.
  intros H. induction values as [|v values IH]; [reflexivity|].
  cbn [map sum_Z fold_right]. fold (sum_Z (map (hits name) values)).
  rewrite IH, (hits_outside_table name v H). reflexivity.
Qed.

Lemma row_bounds (flag_list : list pyval) (out : list (string * Z))
    (name : string) (count : Z) :
  aggregate flag_list = Ok out -> In (name, count) out ->
  In name (map snd flags_dict) /\ 1 <= count <= 2 * len flag_list.
Proof.
  intros H Hin.
  apply aggregate_counts in H as (values & fc & Hall & Hok & Hp & Hget).
  apply (Permutation_in _ (Permutation_sym Hp)) in Hin.
  apply (In_counts fc name count Hok) in Hin as [Hc Hpos].
  rewrite Hget in Hc. pose proof (sum_hits_bounds name values) as Hb.
  unfold len. rewrite (Forall2_length Hall). split; [|lia].
  destruct (in_dec string_dec name (map snd flags_dict)) as [Hin|Hout];
    [exact Hin|].
  rewrite (sum_hits_outside_table name values Hout) in Hc. lia.
Qed.

(** X3: every pair of the output carries a name of the table and a count
    between 1 and twice the number of values. *)
Theorem aggregate_count_bounds (flag_list : list pyval)
    (out : list (string * Z)) (name : string) (count : Z) :
  aggregate flag_list = Ok out -> In (name, count) out ->
  In name (map snd flags_dict) /\ 1 <= count <= 2 * len flag_list.
Proof.
  intros H Hin.
  destruct (row_bounds flag_list out name count H Hin) as [Hname Hcount].
  split; [exact Hname | exact Hcount].
Qed.

Lemma aggregate_count_bounds_witness :
  In "RF_DebugDestroy" (map snd flags_dict) /\
  1 <= 3 <= 2 * len [PyStr "C0000001"; PyInt 0x40000000].
Proof.
  apply (aggregate_count_bounds [PyStr "C0000001"; PyInt 0x40000000]
           [("RF_DebugDestroy", 3); ("RF_Transactional", 1)]).
  - vm_compute. reflexivity.
  - left. reflexivity.
Defined.

(** X4: the output has at most 31 pairs, one for each distinct name of the
    table. *)
Theorem aggregate_rows_bounded (flag_list : list pyval)
    (out : list (string * Z)) :
  aggregate flag_list = Ok out -> (List.length out <= 31)%nat.
Proof.
  intros H.
  assert (Hnd : NoDup (map fst out)).
  { pose proof H as H'.
    apply aggregate_counts in H' as (values & fc & _ & Hok & Hp & _).
    apply (counts_ok_perm fc out Hp Hok). }
  assert (Hincl : incl (map fst out) (nodup string_dec (map snd flags_dict))).
  { intros name Hname. apply nodup_In.
    apply in_map_iff in Hname as ([n c] & <- & Hin).
    apply (row_bounds flag_list out n c H Hin). }
  pose proof (NoDup_incl_length Hnd Hincl) as Hlen.
  rewrite length_map in Hlen.
  assert (H31 : List.length (nodup string_dec (map snd flags_dict)) = 31%nat)
    by (vm_compute; reflexivity).
  lia.
Qed.

Lemma aggregate_rows_bounded_witness :
  (List.length [("RF_DebugDestroy", 3%Z); ("RF_Transactional", 1%Z)]
   <= 31)%nat.
Proof.
  apply (aggregate_rows_bounded [PyStr "C0000001"; PyInt 0x40000000]).
  vm_compute. reflexivity.
Defined.

(** ** Order and concatenation of the values *)

Lemma sum_Z_perm (a b : list Z) : Permutation a b -> sum_Z a = sum_Z b.
Proof.
  unfold sum_Z. induction 1; cbn [fold_right] in *; lia.
Qed.

Lemma sum_Z_app (a b : list Z) : sum_Z (a ++ b) = sum_Z a + sum_Z b.
Proof.
  unfold sum_Z. induction a as [|x a IH]; cbn [app fold_right]; lia.
Qed.

Lemma values_perm (l l' : list pyval) (values : list Z) :
  Permutation l l' ->
  Forall2 (fun fv v => to_int fv = Ok v) l values ->
  exists values',
    Permutation values values' /\
    Forall2 (fun fv v => to_int fv = Ok v) l' values'.
Proof.
  intros Hp. revert values.
  induction Hp as [|x l l' Hp IH|x y l|l l' l'' _ IH1 _ IH2]; intros values H.
  - inversion H; subst. exists []. split; constructor.
  - inversion H as [|? v ? vs Hx Hl]; subst.
    destruct (IH vs Hl) as (vs' & Hpv & Hall).
    exists (v :: vs'). split; [now constructor | now constructor].
  - inversion H as [|? v ? vs Hy Hl]; subst.
    inversion Hl as [|? w ? ws Hx Hl']; subst.
    exists (w :: v :: ws). split; [apply perm_swap|].
    repeat constructor; assumption.
  - destruct (IH1 values H) as (v1 & Hp1 & H1).
    destruct (IH2 v1 H1) as (v2 & Hp2 & H2).
    exists v2. split; [eapply perm_trans; eassumption | exact H2].
Qed.

Lemma values_unique (l : list pyval) (v1 v2 : list Z) :
  Forall2 (fun fv v => to_int fv = Ok v) l v1 ->
  Forall2 (fun fv v => to_int fv = Ok v) l v2 -> v1 = v2.
Proof.
  intros H. revert v2. induction H as [|fv v l v1 Hv _ IH]; intros v2 H2.
  - now inversion H2.
  - inversion H2 as [|? w ? ws Hw Hl]; subst.
    rewrite Hv in Hw. inversion Hw; subst. f_equal. apply IH, Hl.
Qed.

Lemma aggregate_total (flag_list : list pyval) (values : list Z) :
  Forall2 (fun fv v => to_int fv = Ok v) flag_list values ->
  exists out, aggregate flag_list = Ok out.
Proof.
  intros H. unfold aggregate.
  destruct (count_flags_total flag_list values [] H) as (fc & ->).
  cbn [res_bind]. eauto.
Qed.

(** The output read as a mapping: the count of [name], 0 when absent. *)
Lemma lookup_output (flag_list : list pyval) (values : list Z)
    (out : list (string * Z)) (name : string) :
  aggregate flag_list = Ok out ->
  Forall2 (fun fv v => to_int fv = Ok v) flag_list values ->
  dict_get out name 0 = sum_Z (map (hits name) values).
Proof.
  intros H Hall.
  apply aggregate_counts in H as (values' & fc & Hall' & Hok & Hp & Hget).
  rewrite (values_unique _ _ _ Hall Hall').
  rewrite <- Hget. symmetry. apply dict_get_perm; [apply Hok | exact Hp].
Qed.

Lemma In_output (flag_list : list pyval) (values : list Z)
    (out : list (string * Z)) (name : string) (count : Z) :
  aggregate flag_list = Ok out ->
  Forall2 (fun fv v => to_int fv = Ok v) flag_list values ->
  In (name, count) out <->
  sum_Z (map (hits name) values) = count /\ 0 < count.
Proof.
  intros H Hall.
  apply aggregate_counts in H as (values' & fc & Hall' & Hok & Hp & Hget).
  rewrite (values_unique _ _ _ Hall Hall'), <- Hget.
  rewrite <- (In_counts fc name count Hok). split; intros Hin.
  - apply (Permutation_in _ (Permutation_sym Hp) Hin).
  - apply (Permutation_in _ Hp Hin).
Qed.

(** X5: the order of the values does not matter to the counts: on a
    permutation of the values the aggregation returns the same pairs, in a
    possibly different order. *)
Theorem aggregate_permutation (l l' : list pyval) (out : list (string * Z)) :
  Permutation l l' -> aggregate l = Ok out ->
  exists out', aggregate l' = Ok out' /\ Permutation out out'.
Proof.
  intros Hp H. pose proof H as H0.
  apply aggregate_counts in H0 as (values & fc & Hall & _).
  destruct (values_perm l l' values Hp Hall) as (values' & Hpv & Hall').
  destruct (aggregate_total l' values' Hall') as (out' & H').
  exists out'. split; [exact H'|].
  apply NoDup_Permutation.
  - apply (NoDup_map_inv fst).
    pose proof H as H1.
    apply aggregate_counts in H1 as (? & fc1 & _ & Hok1 & Hp1 & _).
    apply (counts_ok_perm fc1 out Hp1 Hok1).
  - apply (NoDup_map_inv fst).
    pose proof H' as H1.
    apply aggregate_counts in H1 as (? & fc1 & _ & Hok1 & Hp1 & _).
    apply (counts_ok_perm fc1 out' Hp1 Hok1).
  - intros [name count].
    rewrite (In_output l values out name count H Hall).
    rewrite (In_output l' values' out' name count H' Hall').
    rewrite (sum_Z_perm _ _ (Permutation_map (hits name) Hpv)).
    reflexivity.
Qed.

Lemma aggregate_permutation_witness :
  exists out',
    aggregate [PyStr "1"; PyStr "4"] = Ok out' /\
    Permutation [("RF_Public", 1); ("RF_Transactional", 1)] out'.
Proof.
  apply (aggregate_permutation [PyStr "4"; PyStr "1"]).
  - apply perm_swap.
  - vm_compute. reflexivity.
Defined.

(** X6: aggregating two sequences one after the other adds their counts
    name by name. *)
Theorem aggregate_app (l1 l2 : list pyval) (out1 out2 : list (string * Z)) :
  aggregate l1 = Ok out1 -> aggregate l2 = Ok out2 ->
  exists out,
    aggregate (l1 ++ l2) = Ok out /\
    forall name,
      dict_get out name 0 = dict_get out1 name 0 + dict_get out2 name 0.
Proof.
  intros H1 H2. pose proof H1 as H1'. pose proof H2 as H2'.
  apply aggregate_counts in H1' as (v1 & _ & Hall1 & _).
  apply aggregate_counts in H2' as (v2 & _ & Hall2 & _).
  pose proof (Forall2_app Hall1 Hall2) as Hall.
  destruct (aggregate_total _ _ Hall) as (out & H).
  exists out. split; [exact H|]. intros name.
  rewrite (lookup_output _ _ _ name H Hall).
  rewrite (lookup_output _ _ _ name H1 Hall1).
  rewrite (lookup_output _ _ _ name H2 Hall2).
  rewrite map_app. apply sum_Z_app.
Qed.

Lemma aggregate_app_witness :
  exists out,
    aggregate ([PyStr "5"] ++ [PyStr "1"; PyStr "2"]) = Ok out /\
    forall name,
      dict_get out name 0
      = dict_get [("RF_Transactional", 1); ("RF_Public", 1)] name 0
        + dict_get [("RF_Transactional", 1); ("RF_Unreachable", 1)] name 0.
Proof.
  apply (aggregate_app [PyStr "5"] [PyStr "1"; PyStr "2"]);
    vm_compute; reflexivity.
Defined.

(** * Further properties of the Decoder *)

Lemma In_decode (v : Z) (name : string) :
  In name (decode v) <->
  exists bit, In (bit, name) flags_dict /\ Z.land v bit <> 0.
Proof.
  unfold decode. rewrite in_map_iff. split.
  - intros ([bit n] & Hn & Hin). cbn [snd] in Hn. subst n.
    apply filter_In in Hin as [Hin Hset]. exists bit. split; [exact Hin|].
    unfold bit_set in Hset. cbn [fst] in Hset.
    now apply negb_true_iff, Z.eqb_neq in Hset.
  - intros (bit & Hin & Hset). exists (bit, name). split; [reflexivity|].
    apply filter_In. split; [exact Hin|].
    unfold bit_set. cbn [fst]. now apply negb_true_iff, Z.eqb_neq.
Qed.

Lemma table_within_32_bits :
  Forall (fun item => Z.land (Z.ones 32) (fst item) = fst item) flags_dict.
Proof.
  unfold flags_dict. repeat (constructor; [vm_compute; reflexivity|]).
  constructor.
Qed.

(** X7: the Decoder looks at the low 32 bits only: a value and its
    remainder modulo 2^32 decode to the same names. *)
Theorem analyze_flags_low_32_bits (v : Z) :
  analyze_flags (PyInt (v mod 2 ^ 32)) = analyze_flags (PyInt v).
Proof.
  rewrite !analyze_flags_filter. f_equal. f_equal.
  apply filter_ext_in. intros item Hin.
  pose proof table_within_32_bits as Ht. rewrite Forall_forall in Ht.
  unfold bit_set. rewrite <- (Z.land_ones v 32) by lia.
  rewrite <- Z.land_assoc, (Ht item Hin). reflexivity.
Qed.

Lemma land_pow2_testbit (v i : Z) :
  0 <= i -> (Z.land v (2 ^ i) =? 0) = negb (Z.testbit v i).
Proof.
  intros Hi. destruct (Z.testbit v i) eqn:Hb; cbn [negb].
  - apply Z.eqb_neq. intros H0.
    assert (Ht : Z.testbit (Z.land v (2 ^ i)) i = true).
    { rewrite Z.land_spec, Hb, Z.pow2_bits_true by lia. reflexivity. }
    rewrite H0, Z.bits_0 in Ht. discriminate.
  - apply Z.eqb_eq. apply Z.bits_inj'. intros n Hn.
    rewrite Z.land_spec, Z.bits_0, Z.pow2_bits_eqb by lia.
    destruct (Z.eqb_spec i n) as [->|Hne]; [rewrite Hb|];
      now rewrite ?andb_false_r.
Qed.

Lemma table_by_position :
  flags_dict = map (fun i => (2 ^ i, name_of_bit i)) bit_positions.
Proof.
  vm_compute. reflexivity.
Qed.

Lemma decode_positions (v : Z) (positions : list Z) :
  Forall (fun i => 0 <= i) positions ->
  map snd (filter (bit_set v)
             (map (fun i => (2 ^ i, name_of_bit i)) positions))
  = map name_of_bit (filter (Z.testbit v) positions).
Proof.
  induction 1 as [|i positions Hi _ IH]; [reflexivity|].
  cbn [map filter]. unfold bit_set at 1. cbn [fst].
  rewrite (land_pow2_testbit v i Hi), negb_involutive.
  destruct (Z.testbit v i); cbn [map snd]; now rewrite IH.
Qed.

Lemma bit_positions_nonneg : Forall (fun i => 0 <= i) bit_positions.
Proof.
  unfold bit_positions. apply Forall_forall. intros i Hi.
  apply in_map_iff in Hi as (n & <- & _). lia.
Qed.

(** X8: the Decoder by bit position: it returns, for the positions 0 to 31
    in this order, the table's name of each position whose bit is set in
    the value; every one of the 32 positions has a name. *)
Theorem analyze_flags_by_position (v : Z) :
  analyze_flags (PyInt v)
  = Ok (map name_of_bit (filter (Z.testbit v) bit_positions)) /\
  map fst flags_dict = map (fun i => 2 ^ i) bit_positions.
Proof.
  split.
  - rewrite analyze_flags_filter. f_equal.
    rewrite table_by_position at 1.
    apply decode_positions, bit_positions_nonneg.
  - vm_compute. reflexivity.
Qed.

(** X9: the names of a bitwise or are the names of either operand. *)
Theorem analyze_flags_lor (a b : Z) :
  exists names names_a names_b,
    analyze_flags (PyInt (Z.lor a b)) = Ok names /\
    analyze_flags (PyInt a) = Ok names_a /\
    analyze_flags (PyInt b) = Ok names_b /\
    forall name, In name names <-> In name names_a \/ In name names_b.
Proof.
  exists (decode (Z.lor a b)), (decode a), (decode b).
  split; [apply analyze_flags_filter|].
  split; [apply analyze_flags_filter|].
  split; [apply analyze_flags_filter|].
  intros name. rewrite !In_decode. split.
  - intros (bit & Hin & Hset).
    rewrite Z.land_lor_distr_l in Hset.
    destruct (Z.eq_dec (Z.land a bit) 0) as [Ha|Ha].
    + right. exists bit. split; [exact Hin|]. intros Hb. apply Hset.
      apply Z.lor_eq_0_iff. auto.
    + left. exists bit. auto.
  - intros [(bit & Hin & Hset)|(bit & Hin & Hset)]; exists bit;
      (split; [exact Hin|]); rewrite Z.land_lor_distr_l;
      intros H0; apply Z.lor_eq_0_iff in H0; tauto.
Qed.

(** * Further properties of the Extractor *)

(** X10: the tokens lie in the text in their order, without overlap, each
    one right behind a lower-case ["0x"] and followed by no further hex
    digit. *)
Theorem extract_hex_values_weave (text : string) :
  exists gaps tail,
    List.length gaps = List.length (extract_hex_values text) /\
    text = weave gaps (extract_hex_values text) tail /\
    tokens_maximal gaps (extract_hex_values text) tail.
Proof.
  unfold extract_hex_values.
  remember (String.length text) as n eqn:Hn.
  revert text Hn. induction n as [n IH] using lt_wf_ind. intros text ->.
  destruct text as [|c t].
  - exists [], "". simp findall. cbn. auto.
  - destruct (match_here (String c t)) as [[d rest]|] eqn:Hm.
    + rewrite (findall_match _ _ _ Hm).
      pose proof (match_here_shorter _ _ _ Hm) as Hl.
      apply match_here_token in Hm as (Htext & _ & _ & Hrest).
      destruct (IH _ Hl rest eq_refl) as (gaps & tail & Hlen & Hw & Hmax).
      exists ("" :: gaps), tail. cbn [List.length weave tokens_maximal].
      rewrite <- Hw. repeat split; auto.
    + rewrite (findall_skip _ _ Hm).
      assert (Hl : (String.length t < String.length (String c t))%nat)
        by (cbn; lia).
      destruct (IH _ Hl t eq_refl) as (gaps & tail & Hlen & Hw & Hmax).
      destruct (findall t) as [|tok toks] eqn:Htoks.
      * exists [], (String c t). cbn. auto.
      * destruct gaps as [|gap gaps]; [discriminate|].
        exists (String c gap :: gaps), tail.
        cbn [List.length weave tokens_maximal] in *.
        repeat split; try tauto.
        change (String c gap ++ "0x" ++ tok ++ weave gaps toks tail)
          with (String c (gap ++ "0x" ++ tok ++ weave gaps toks tail)).
        f_equal. tauto.
Qed.

Lemma match_here_needs_0 (c : ascii) (t : string) :
  c <> "0"%char -> match_here (String c t) = None.
Proof.
  intros Hc. unfold match_here.
  destruct c as [[] [] [] [] [] [] [] []]; try reflexivity. congruence.
Qed.

Lemma hex_run_app (t b : string) :
  ends_with_separator t = true ->
  hex_run (t ++ b) = (fst (hex_run t), snd (hex_run t) ++ b) /\
  ends_with_separator (snd (hex_run t)) = true.
Proof.
  induction t as [|c t IH]; [discriminate|].
  intros Hsep. cbn [append hex_run].
  destruct (class_hex c) eqn:Hc.
  - destruct t as [|c' t'].
    + cbn in Hsep. rewrite Hc in Hsep. discriminate.
    + destruct (IH Hsep) as [Hrun Hs]. rewrite Hrun.
      destruct (hex_run (String c' t')) as [d rest]. cbn [fst snd] in *.
      split; [reflexivity | exact Hs].
  - cbn [fst snd]. split; [reflexivity | exact Hsep].
Qed.

Lemma match_here_app (a b : string) :
  ends_with_separator a = true ->
  match match_here a with
  | Some (d, rest) =>
      match_here (a ++ b) = Some (d, rest ++ b) /\
      ends_with_separator rest = true
  | None => match_here (a ++ b) = None
  end.
Proof.
  destruct a as [|c0 a']; [discriminate|]. intros Hsep.
  destruct (ascii_dec c0 "0") as [->|H0].
  2: { rewrite (match_here_needs_0 c0 a' H0). cbn [append].
       apply match_here_needs_0, H0. }
  destruct a' as [|c1 a'']; [cbn in Hsep; discriminate|].
  destruct (ascii_dec c1 "x") as [->|Hx].
  2: { rewrite (match_here_needs_x _ c1 a'' Hx). cbn [append].
       apply match_here_needs_x, Hx. }
  destruct a'' as [|c2 a3]; [cbn in Hsep; discriminate|].
  assert (Hsep' : ends_with_separator (String c2 a3) = true) by exact Hsep.
  destruct (hex_run_app (String c2 a3) b Hsep') as [Hrun Hs].
  change (String "0" (String "x" (String c2 a3)) ++ b)
    with (String "0" (String "x" (String c2 a3 ++ b))).
  unfold match_here. rewrite Hrun.
  destruct (hex_run (String c2 a3)) as [d rest]. cbn [fst snd] in *.
  destruct d; [reflexivity | auto].
Qed.

Lemma findall_app (a b : string) :
  ends_with_separator a = true -> findall (a ++ b) = (findall a ++ findall b)%list.
Proof.
  remember (String.length a) as n eqn:Hn.
  revert a Hn. induction n as [n IH] using lt_wf_ind. intros a -> Hsep.
  destruct a as [|c t]; [discriminate|].
  pose proof (match_here_app (String c t) b Hsep) as Happ.
  destruct (match_here (String c t)) as [[d rest]|] eqn:Hm.
  - destruct Happ as [Hmb Hrest].
    rewrite (findall_match _ _ _ Hm), (findall_match _ _ _ Hmb).
    pose proof (match_here_shorter _ _ _ Hm) as Hl.
    rewrite (IH _ Hl rest eq_refl Hrest). reflexivity.
  - change (String c t ++ b) with (String c (t ++ b)) in *.
    rewrite (findall_skip _ _ Hm), (findall_skip _ _ Happ).
    destruct t as [|c' t'].
    + simp findall. reflexivity.
    + apply (IH (String.length (String c' t'))); [cbn; lia | reflexivity|].
      exact Hsep.
Qed.

(** X11: extraction goes piece by piece: behind a text that ends with a
    character that is neither a hex digit nor ["x"] (a space, a newline),
    the tokens of what follows are appended to the tokens of the text. *)
Theorem extract_hex_values_app (a b : string) :
  ends_with_separator a = true ->
  extract_hex_values (a ++ b)
  = (extract_hex_values a ++ extract_hex_values b)%list.
Proof.
  intros Hsep. unfold extract_hex_values. apply findall_app, Hsep.
Qed.

Lemma extract_hex_values_app_witness :
  extract_hex_values ("a 0x1F, " ++ "0xbeef 0x")
  = (extract_hex_values "a 0x1F, " ++ extract_hex_values "0xbeef 0x")%list.
Proof.
  apply extract_hex_values_app. vm_compute. reflexivity.
Defined.

(** * Further properties of the program *)

(** X12: with any number of command-line words other than two, the program
    prints the usage line and exits with status 1 without reading a file. *)
Theorem usage_exit (argv : list string) (fs : filesystem) :
  List.length argv <> 2%nat ->
  run argv fs = (["Usage: python flag_checker.py <filename>"], 1).
Proof.
  intros Hlen.
  destruct argv as [|prog [|filename [|extra argv]]]; cbn in Hlen;
    try reflexivity.
  congruence.
Qed.

Lemma usage_exit_witness :
  run ["flag_checker.py"; "a.txt"; "b.txt"] (one_file "a.txt" "0x1")
  = (["Usage: python flag_checker.py <filename>"], 1).
Proof.
  apply usage_exit. cbn. discriminate.
Defined.

Lemma int16_raises (s : string) (e : raised) :
  int16 s = Raise e -> exists msg, e = Exc ValueError msg.
Proof.
  unfold int16. destruct (split_sign (strip s)) as [neg body].
  destruct (int_digits (skip_prefix16 body) 0 AtStart); [discriminate|].
  intros [= <-]. eauto.
Qed.

Lemma count_flags_raises (flag_list : list pyval) (fc : dict) (e : raised) :
  count_flags flag_list fc = Raise e -> exists msg, e = Exc ValueError msg.
Proof.
  revert fc. induction flag_list as [|fv rest IH]; intros fc;
    cbn [count_flags]; [discriminate|].
  destruct fv as [z|s]; cbn [to_int res_bind]; [apply IH|].
  destruct (int16 s) as [v|e'] eqn:Hs; cbn [res_bind]; [apply IH|].
  intros [= <-]. apply (int16_raises s e' Hs).
Qed.

Lemma percentage_raises (count total : Z) (e : raised) :
  total <> 0 -> percentage count total = Raise e ->
  exists msg, e = Exc OverflowError msg.
Proof.
  intros Ht. unfold percentage, int_truediv.
  destruct (Z.eqb_spec total 0) as [|_]; [contradiction|].
  destruct (SFdiv prec emax (exact_float count) (exact_float total));
    cbn [res_bind]; try discriminate.
  intros [= <-]. eauto.
Qed.

Lemma for_each_report_raises (total : Z) (items : list (string * Z))
    (out0 out : list string) (e : raised) :
  total <> 0 ->
  for_each items (report_item total) out0 = (Raise e, out) ->
  exists msg, e = Exc OverflowError msg.
Proof.
  intros Ht. revert out0.
  induction items as [|[name count] items IH]; intros out0.
  - cbn [for_each]. unfold ret. discriminate.
  - cbn [for_each]. unfold bind at 1. unfold report_item at 1.
    unfold bind at 1, lift, print.
    destruct (percentage count total) as [pct|e'] eqn:Hpct.
    + apply IH.
    + intros [= <- _]. apply (percentage_raises count total e' Ht Hpct).
Qed.

Lemma analyze_multiple_raises (flag_list : list pyval)
    (out0 out : list string) (e : raised) :
  analyze_multiple flag_list out0 = (Raise e, out) ->
  exists msg, e = Exc ValueError msg \/ e = Exc OverflowError msg.
Proof.
  rewrite analyze_multiple_unfold.
  destruct (count_flags flag_list []) as [fc|e'] eqn:Hfc.
  - destruct flag_list as [|fv rest].
    + cbn [count_flags] in Hfc. inversion Hfc; subst.
      cbn. unfold ret. discriminate.
    + intros H. apply for_each_report_raises in H as (msg & ->); [eauto|].
      unfold len. cbn [List.length]. lia.
  - intros [= <- _].
    destruct (count_flags_raises _ _ _ Hfc) as (msg & ->). eauto.
Qed.

(** X13: the analysis divides by the number of values only when there is a
    value: whatever it raises is a ValueError of [int] or an OverflowError
    of the division, never a ZeroDivisionError. *)
Theorem analyze_multiple_no_zero_division (flag_list : list pyval)
    (out0 out : list string) (e : raised) :
  analyze_multiple flag_list out0 = (Raise e, out) ->
  (exists msg, e = Exc ValueError msg \/ e = Exc OverflowError msg) /\
  forall msg, e <> Exc ZeroDivisionError msg.
Proof.
  intros H.
  destruct (analyze_multiple_raises _ _ _ _ H) as (msg & [-> | ->]);
    (split; [eauto | discriminate]).
Qed.

Lemma analyze_multiple_no_zero_division_witness :
  (exists msg,
      Exc ValueError "invalid literal for int() with base 16: 'zz'"
      = Exc ValueError msg \/
      Exc ValueError "invalid literal for int() with base 16: 'zz'"
      = Exc OverflowError msg) /\
  forall msg,
    Exc ValueError "invalid literal for int() with base 16: 'zz'"
    <> Exc ZeroDivisionError msg.
Proof.
  apply (analyze_multiple_no_zero_division [PyStr "1"; PyStr "zz"] []
           [banner; "ANALYZING FLAGS"; banner]).
  vm_compute. reflexivity.
Defined.

Lemma analyze_multiple_returns (flag_list : list pyval)
    (out0 out : list string) (u : unit) :
  analyze_multiple flag_list out0 = (Ok u, out) ->
  exists pairs lines,
    aggregate flag_list = Ok pairs /\
    out = (out0 ++ [banner; "ANALYZING FLAGS"; banner; header (len flag_list)]
             ++ lines)%list /\
    Forall2 (fun item line =>
               line_layout (fst item) (snd item) (len flag_list) line)
            pairs lines.
Proof.
  destruct u. rewrite analyze_multiple_unfold. unfold aggregate.
  destruct (count_flags flag_list []) as [fc|e]; [|discriminate].
  intros H. apply for_each_report in H as (lines & -> & Hall).
  exists (sorted_flags fc), lines. split; [reflexivity|].
  split; [|exact Hall]. now rewrite <- !app_assoc.
Qed.

(** What a run with one argument does, branch by branch. *)
Lemma run_cases (prog filename : string) (fs : filesystem) :
  run [prog; filename] fs
  = match fs filename with
    | Raise (Exc cls msg) => ([open_error_report filename cls msg], 1)
    | Raise (SystemExit code) => ([], code)
    | Ok content =>
        match extract_hex_values content with
        | [] => (["No hex values found in file!"], 1)
        | tok :: toks =>
            match analyze_multiple (map PyStr (tok :: toks))
                    [found_line (tok :: toks)] with
            | (Ok _, out) => (out, 0)
            | (Raise (Exc cls msg), out) =>
                ((out ++ [open_error_report filename cls msg])%list, 1)
            | (Raise (SystemExit code), out) => (out, code)
            end
        end
    end.
Proof.
  unfold run, main, try_except, bind, lift.
  destruct (fs filename) as [content|[cls msg|code]].
  - destruct (extract_hex_values content) as [|tok toks]; [reflexivity|].
    unfold print at 1. cbn [app].
    change ("Found " ++ str_int (len (tok :: toks)) ++ " hex values" ++ newline)
      with (found_line (tok :: toks)).
    destruct (analyze_multiple (map PyStr (tok :: toks))
                [found_line (tok :: toks)]) as [[u|[cls msg|code]] out];
      [reflexivity | destruct cls; reflexivity | reflexivity].
  - destruct cls; reflexivity.
  - reflexivity.
Qed.

Lemma one_file_no_exit (name text : string) : no_exit (one_file name text).
Proof.
  intros filename code. unfold one_file.
  destruct (String.eqb filename name); discriminate.
Qed.

(** What [main] returns with one argument, branch by branch. *)
Lemma main_cases (prog filename : string) (fs : filesystem) :
  main [prog; filename] fs []
  = match fs filename with
    | Raise (Exc cls msg) =>
        (Raise (SystemExit 1), [open_error_report filename cls msg])
    | Raise (SystemExit code) => (Raise (SystemExit code), [])
    | Ok content =>
        match extract_hex_values content with
        | [] => (Raise (SystemExit 1), ["No hex values found in file!"])
        | tok :: toks =>
            match analyze_multiple (map PyStr (tok :: toks))
                    [found_line (tok :: toks)] with
            | (Ok u, out) => (Ok u, out)
            | (Raise (Exc cls msg), out) =>
                (Raise (SystemExit 1),
                 (out ++ [open_error_report filename cls msg])%list)
            | (Raise (SystemExit code), out) => (Raise (SystemExit code), out)
            end
        end
    end.
Proof.
  unfold main, try_except, bind, lift.
  destruct (fs filename) as [content|[cls msg|code]].
  - destruct (extract_hex_values content) as [|tok toks]; [reflexivity|].
    unfold print at 1. cbn [app].
    change ("Found " ++ str_int (len (tok :: toks)) ++ " hex values" ++ newline)
      with (found_line (tok :: toks)).
    destruct (analyze_multiple (map PyStr (tok :: toks))
                [found_line (tok :: toks)]) as [[u|[cls msg|code]] out];
      [reflexivity | destruct cls; reflexivity | reflexivity].
  - destruct cls; reflexivity.
  - reflexivity.
Qed.

Lemma open_error_report_diagnostic (filename : string) (cls : exc_class)
    (msg : string) : diagnostic (open_error_report filename cls msg).
Proof.
  right. right. destruct cls; cbn [open_error_report];
    try (exists msg; reflexivity).
  exists ("File " ++ quote filename ++ " not found!"). reflexivity.
Qed.

(** X14: no exception escapes the program.  Whatever the arguments and the
    file, [main] either returns, and the exit status is 0, or ends by its
    own [sys.exit(1)], and then the last thing it printed is the usage
    line, the no-hex-values line or an "Error: ..." line. *)
Theorem main_no_escape (argv : list string) (fs : filesystem) :
  no_exit fs ->
  exists out,
    (main argv fs [] = (Ok tt, out) /\ run argv fs = (out, 0)) \/
    (main argv fs [] = (Raise (SystemExit 1), out) /\ run argv fs = (out, 1) /\
     diagnostic (last out "")).
Proof.
  intros Hfs.
  assert (Husage : forall argv',
             main argv' fs [] = (Raise (SystemExit 1),
                                 ["Usage: python flag_checker.py <filename>"]) ->
             exists out,
               (main argv' fs [] = (Ok tt, out) /\ run argv' fs = (out, 0)) \/
               (main argv' fs [] = (Raise (SystemExit 1), out) /\
                run argv' fs = (out, 1) /\ diagnostic (last out ""))).
  { intros argv' H. eexists. right. split; [exact H|].
    split; [unfold run; rewrite H; reflexivity|]. left. reflexivity. }
  destruct argv as [|prog [|filename [|extra argv]]];
    try (apply Husage; reflexivity).
  unfold run. rewrite main_cases.
  destruct (fs filename) as [content|[cls msg|code]] eqn:Hf.
  - destruct (extract_hex_values content) as [|tok toks].
    + eexists. right. split; [reflexivity|]. split; [reflexivity|].
      right. left. reflexivity.
    + destruct (analyze_multiple (map PyStr (tok :: toks))
                  [found_line (tok :: toks)])
        as [[[]|[cls msg|code]] out] eqn:Ha.
      * exists out. left. split; reflexivity.
      * eexists. right. split; [reflexivity|]. split; [reflexivity|].
        rewrite last_last. apply open_error_report_diagnostic.
      * destruct (analyze_multiple_raises _ _ _ _ Ha) as (msg & [H|H]);
          discriminate H.
  - eexists. right. split; [reflexivity|]. split; [reflexivity|].
    apply open_error_report_diagnostic.
  - exfalso. apply (Hfs filename code Hf).
Qed.

Lemma main_no_escape_witness :
  exists out,
    (main ["flag_checker.py"; "gone.txt"] (one_file "a.txt" "0x5") []
     = (Ok tt, out) /\
     run ["flag_checker.py"; "gone.txt"] (one_file "a.txt" "0x5") = (out, 0)) \/
    (main ["flag_checker.py"; "gone.txt"] (one_file "a.txt" "0x5") []
     = (Raise (SystemExit 1), out) /\
     run ["flag_checker.py"; "gone.txt"] (one_file "a.txt" "0x5") = (out, 1) /\
     diagnostic (last out "")).
Proof.
  apply main_no_escape, one_file_no_exit.
Defined.

(** X15: exit status 0 means the whole report was printed: there were
    exactly two command-line words, the file was read, it held at least
    one token, and the output is the "Found N hex values" line, the banner,
    the header and one line per pair of the aggregation. *)
Theorem run_success (argv : list string) (fs : filesystem) :
  no_exit fs -> snd (run argv fs) = 0 ->
  exists prog filename content pairs lines,
    argv = [prog; filename] /\
    fs filename = Ok content /\
    extract_hex_values content <> [] /\
    aggregate (map PyStr (extract_hex_values content)) = Ok pairs /\
    fst (run argv fs)
    = ([found_line (extract_hex_values content);
        banner; "ANALYZING FLAGS"; banner;
        header (len (extract_hex_values content))] ++ lines)%list /\
    Forall2 (fun item line =>
               line_layout (fst item) (snd item)
                 (len (extract_hex_values content)) line)
            pairs lines.
Proof.
  intros Hfs.
  destruct argv as [|prog [|filename [|extra argv]]]; try discriminate.
  rewrite run_cases.
  destruct (fs filename) as [content|[cls msg|code]] eqn:Hf;
    [|discriminate|exfalso; apply (Hfs filename code Hf)].
  destruct (extract_hex_values content) as [|tok toks] eqn:Hex;
    [discriminate|].
  destruct (analyze_multiple (map PyStr (tok :: toks))
              [found_line (tok :: toks)]) as [[u|[cls msg|code]] out] eqn:Ha.
  - intros _.
    apply analyze_multiple_returns in Ha as (pairs & lines & Hagg & -> & Hall).
    exists prog, filename, content, pairs, lines.
    assert (Hlen : len (map PyStr (tok :: toks)) = len (tok :: toks))
      by (unfold len; now rewrite length_map).
    rewrite Hlen in *. rewrite ?Hex.
    split; [reflexivity|]. split; [exact Hf|].
    split; [discriminate|]. split; [exact Hagg|].
    split; [reflexivity | exact Hall].
  - discriminate.
  - destruct (analyze_multiple_raises _ _ _ _ Ha) as (msg & [H|H]);
      discriminate H.
Qed.

Lemma run_success_witness :
  exists prog filename content pairs lines,
    ["flag_checker.py"; "a.txt"] = [prog; filename] /\
    one_file "a.txt" "0x5" filename = Ok content /\
    extract_hex_values content <> [] /\
    aggregate (map PyStr (extract_hex_values content)) = Ok pairs /\
    fst (run ["flag_checker.py"; "a.txt"] (one_file "a.txt" "0x5"))
    = ([found_line (extract_hex_values content);
        banner; "ANALYZING FLAGS"; banner;
        header (len (extract_hex_values content))] ++ lines)%list /\
    Forall2 (fun item line =>
               line_layout (fst item) (snd item)
                 (len (extract_hex_values content)) line)
            pairs lines.
Proof.
  apply run_success; [apply one_file_no_exit | vm_compute; reflexivity].
Defined.
